(** * Resume parser: text matching, experience estimate, skills and scoring

    A shallow embedding of [resume_parser.py].  A Python [str] is a list of
    Unicode code points.  The regular expressions of the source are compiled
    without [re.ASCII], so [\b], [\s], [\d], [re.IGNORECASE], [int()] and
    [str.lower()] consult the Unicode character database; that database is
    not part of the repository and is taken as a parameter
    ([UnicodeData]). *)

From Stdlib Require Import ZArith NArith List Lia Bool.
From Stdlib Require Import Ascii String DecimalString.
From Stdlib Require Import PrimFloat Uint63.
From stdpp Require Import gmap list sorting strings.

Local Open Scope Z_scope.
Local Open Scope list_scope.

(** ** Strings *)

Abbreviation pystr := (list N).

(** A literal of the source, as its code points (the literals below are all
    in the Basic Latin block, one byte per code point). *)
Definition u (s : string) : pystr :=
  (fun a => N_of_ascii a) <$> list_ascii_of_string s.
Arguments u s%_string.

(** ** The Unicode character database, as far as the program consults it *)

Record UnicodeData := {
  isalnum : N -> bool;          (* Py_UNICODE_ISALNUM: [\w] is this or '_' *)
  isspace : N -> bool;          (* Py_UNICODE_ISSPACE: [\s] *)
  decimal : N -> option Z;      (* Py_UNICODE_TODECIMAL: [\d] and int() *)
  tolower : N -> N;             (* Py_UNICODE_TOLOWER: re.IGNORECASE *)
  lower_full : N -> list N;     (* _PyUnicode_ToLowerFull: str.lower() *)
  cased : N -> bool;            (* _PyUnicode_IsCased: final sigma rule *)
  case_ignorable : N -> bool;   (* _PyUnicode_IsCaseIgnorable: same *)
}.

(** A code point of a text together with the properties looked up for it. *)
Record uchar := UChar {
  cp : N;
  alnum : bool;
  space : bool;
  dec : option Z;
  slow : N;
  low : list N;
  is_cased : bool;
  case_ign : bool;
}.

Definition classify (U : UnicodeData) (c : N) : uchar :=
  UChar c (isalnum U c) (isspace U c) (decimal U c) (tolower U c)
        (lower_full U c) (cased U c) (case_ignorable U c).

Definition annotate (U : UnicodeData) (s : pystr) : list uchar :=
  classify U <$> s.

Definition codes (a : list uchar) : pystr := cp <$> a.

(** The database on the code points that the patterns and the examples of
    this development use: Basic Latin, U+017F (long s), U+2013 and U+2014
    (en and em dash).  Elsewhere it answers as for an unassigned code
    point. *)
Definition basic (c : N) : bool :=
  ((c <? 128) || (c =? 383) || (c =? 8211) || (c =? 8212))%N.

Definition ascii_upper (c : N) : bool := ((65 <=? c) && (c <=? 90))%N.
Definition ascii_lower (c : N) : bool := ((97 <=? c) && (c <=? 122))%N.
Definition ascii_digit (c : N) : bool := ((48 <=? c) && (c <=? 57))%N.

Definition basic_tables : UnicodeData := {|
  isalnum c := ascii_upper c || ascii_lower c || ascii_digit c || (c =? 383)%N;
  isspace c := (((9 <=? c) && (c <=? 13)) || ((28 <=? c) && (c <=? 32)))%N;
  decimal c := if ascii_digit c then Some (Z.of_N c - 48) else None;
  tolower c := if ascii_upper c then (c + 32)%N else c;
  lower_full c := [if ascii_upper c then (c + 32)%N else c];
  cased c := ascii_upper c || ascii_lower c || (c =? 383)%N;
  (* ' . : ^ ` *)
  case_ignorable c :=
    ((c =? 39) || (c =? 46) || (c =? 58) || (c =? 94) || (c =? 96))%N;
|}.

(** What is assumed of the database: it is the Unicode one on the [basic]
    code points. *)
Definition unicode_ok (U : UnicodeData) : Prop :=
  forall c, basic c = true -> classify U c = classify basic_tables c.

(** ** Matching primitives of [re] *)

(** [\w] *)
Definition is_word (c : uchar) : bool := alnum c || (cp c =? 95)%N.

Definition word_opt (o : option uchar) : bool :=
  match o with Some c => is_word c | None => false end.

(** [\b] at the position between [prev] and the head of [rest]: exactly one
    side is a word character (the ends of the text count as non-word). *)
Definition boundary (prev : option uchar) (rest : list uchar) : bool :=
  xorb (word_opt prev) (word_opt (head rest)).

(** A literal without flags, as [re.escape] produces it: code point by code
    point.  Returns the last character consumed and what is left. *)
Fixpoint match_lit (pat : pystr) (prev : option uchar) (rest : list uchar)
  : option (option uchar * list uchar) :=
  match pat with
  | [] => Some (prev, rest)
  | p :: pat' =>
      match rest with
      | c :: rest' => if (cp c =? p)%N then match_lit pat' (Some c) rest' else None
      | [] => None
      end
  end.

(** [re.search]: the pattern is tried at every position, left to right, the
    end of the text included. *)
Fixpoint search (m : option uchar -> list uchar -> bool)
         (prev : option uchar) (rest : list uchar) : bool :=
  m prev rest ||
  match rest with
  | [] => false
  | c :: rest' => search m (Some c) rest'
  end.

(** ** Configuration *)

Record role := Role {
  experience_range : Z * Z;
  mandatory_keywords : list pystr;
  positive_keywords : list pystr;
}.

Definition JOB_ROLES : gmap pystr role :=
  list_to_map [
    (u "Data Analyst",
     Role (1, 5)
       [u "sql"; u "excel"; u "tableau"; u "power bi"]
       [u "analyst"; u "analytics"; u "dashboard"; u "reporting"; u "python";
        u "r"; u "statistics"; u "visualization"; u "data engineer"; u "etl"]);
    (u "Junior Developer",
     Role (0, 3)
       [u "python"; u "git"; u "sql"]
       [u "developer"; u "software"; u "engineer"; u "code"; u "programming";
        u "flask"; u "django"; u "api"]);
    (u "DevOps Engineer",
     Role (2, 7)
       [u "aws"; u "docker"; u "kubernetes"; u "ci/cd"; u "terraform"]
       [u "devops"; u "infrastructure"; u "automation"; u "cloud"; u "sysadmin";
        u "jenkins"; u "ansible"]);
    (u "Machine Learning Engineer",
     Role (2, 8)
       [u "python"; u "tensorflow"; u "pytorch"; u "scikit-learn"; u "sql"]
       [u "machine learning"; u "ml"; u "ai"; u "artificial intelligence";
        u "deep learning"; u "nlp"; u "computer vision"]);
    (u "Frontend Developer",
     Role (1, 6)
       [u "html"; u "css"; u "javascript"; u "react"; u "git"]
       [u "frontend"; u "ui"; u "ux"; u "web developer"; u "angular"; u "vue";
        u "typescript"])
  ].

Definition SKILLS_DB : list pystr := [
  u "python"; u "java"; u "c++"; u "sql"; u "javascript"; u "html"; u "css";
  u "git"; u "docker"; u "kubernetes";
  u "aws"; u "azure"; u "gcp"; u "react"; u "angular"; u "vue"; u "django";
  u "flask"; u "fastapi";
  u "tensorflow"; u "pytorch"; u "scikit-learn"; u "pandas"; u "numpy";
  u "matplotlib"; u "seaborn";
  u "tableau"; u "power bi"; u "excel"; u "r"; u "ci/cd"; u "jenkins";
  u "ansible"; u "terraform"; u "nlp";
  u "computer vision"; u "apache spark"; u "hadoop"; u "airflow";
  u "aws redshift"; u "etl"
].

(** ** [sorted] on strings and on integers *)

(** Python orders [str] values lexicographically by code point. *)
Fixpoint str_leb (a b : pystr) : bool :=
  match a, b with
  | [], _ => true
  | _ :: _, [] => false
  | x :: a', y :: b' => (x <? y)%N || ((x =? y)%N && str_leb a' b')
  end.

Definition str_le (a b : pystr) : Prop := str_leb a b = true.

#[global] Instance str_le_dec a b : Decision (str_le a b).
Proof. unfold str_le. apply _. Defined.

(** [sorted] returns the sorted permutation of its argument; for an order
    that is total and antisymmetric there is only one, so merge sort
    stands for Python's sort. *)
Definition sorted_str (l : list pystr) : list pystr := merge_sort str_le l.
Definition sorted_int (l : list Z) : list Z := merge_sort Z.le l.

(** ** Skill detection *)

(** One attempt of [r'\b' + re.escape(skill) + r'\b'] at a position. *)
Definition skill_at (skill : pystr) (prev : option uchar) (rest : list uchar)
  : bool :=
  boundary prev rest &&
  match match_lit skill prev rest with
  | Some (prev', rest') => boundary prev' rest'
  | None => false
  end.

Definition find_skills (text : list uchar) : list pystr :=
  let found_skills :=
    filter (fun skill => search (skill_at skill) None text = true) SKILLS_DB in
  sorted_str (elements (list_to_set found_skills : gset pystr)).

Definition _find_skills (U : UnicodeData) (text : pystr) : list pystr :=
  find_skills (annotate U text).



(** ** Exceptions *)

Inductive exn :=
| ValueError (msg : pystr)
| ZeroDivisionError.

Inductive result (A : Type) :=
| Return (a : A)
| Raise (e : exn).
Arguments Return {A} a.
Arguments Raise {A} e.

#[global] Instance result_ret : MRet result := fun _ a => Return a.

#[global] Instance result_bind : MBind result := fun _ _ k r =>
  match r with
  | Return a => k a
  | Raise e => Raise e
  end.

(** ** [str.lower] and [int] *)

Fixpoint skip_while {A} (p : A -> bool) (l : list A) : list A :=
  match l with
  | c :: l' => if p c then skip_while p l' else l
  | [] => []
  end.

(** The Final_Sigma context of a capital sigma: a cased character before it
    and none after it, case-ignorable ones skipped on both sides. *)
Definition final_sigma (before_rev after : list uchar) : bool :=
  match skip_while case_ign before_rev with
  | c :: _ => is_cased c
  | [] => false
  end &&
  match skip_while case_ign after with
  | c :: _ => negb (is_cased c)
  | [] => true
  end.

Fixpoint lower_from (before_rev rest : list uchar) : pystr :=
  match rest with
  | [] => []
  | c :: rest' =>
      (if (cp c =? 931)%N
       then [if final_sigma before_rev rest' then 962%N else 963%N]
       else low c)
      ++ lower_from (c :: before_rev) rest'
  end.

(** [s.lower()] *)
Definition str_lower (s : list uchar) : pystr := lower_from [] s.

Fixpoint int_digits (acc : Z) (s : list uchar) : option Z :=
  match s with
  | [] => Some acc
  | c :: s' =>
      match dec c with
      | Some d => int_digits (10 * acc + d) s'
      | None => None
      end
  end.

(** [int(s)] on a token of the patterns below: decimal digits of any script,
    most significant first; a token that is not all digits raises
    ValueError.  (A sign, underscores and surrounding white space, which
    [int] also accepts, cannot occur in such a token.) *)
Definition int (s : list uchar) : result Z :=
  match s, int_digits 0 s with
  | _ :: _, Some n => Return n
  | _, _ =>
      Raise (ValueError
               (u "invalid literal for int() with base 10: '" ++ codes s ++ u "'"))
  end.

(** ** The patterns of the experience estimate *)

Definition is_decimal (c : uchar) : bool :=
  match dec c with Some _ => true | None => false end.

(** [20\d{2}]: the token and what follows it. *)
Definition year_token (rest : list uchar) : option (list uchar * list uchar) :=
  match rest with
  | c1 :: c2 :: c3 :: c4 :: rest' =>
      if (cp c1 =? 50)%N && (cp c2 =? 48)%N && is_decimal c3 && is_decimal c4
      then Some ([c1; c2; c3; c4], rest')
      else None
  | _ => None
  end.

(** [\b20\d{2}\b] at a position. *)
Definition year_at (prev : option uchar) (rest : list uchar)
  : option (list uchar * list uchar) :=
  if boundary prev rest then
    match year_token rest with
    | Some (tok, rest') =>
        if boundary (last tok) rest' then Some (tok, rest') else None
    | None => None
    end
  else None.

(** [\s*] followed by the rest [k] of a pattern: greedy, so the longest run
    of white space is tried first and shorter ones when [k] fails. *)
Fixpoint spaces_then {A} (k : option uchar -> list uchar -> option A)
         (prev : option uchar) (rest : list uchar) : option A :=
  match rest with
  | c :: rest' =>
      if space c then
        match spaces_then k (Some c) rest' with
        | Some r => Some r
        | None => k prev rest
        end
      else k prev rest
  | [] => k prev rest
  end.

(** The class [[-–—to]] under IGNORECASE: ONE character, lowered by
    [tolower], out of hyphen, en dash, em dash, "t" and "o". *)
Definition separator (c : uchar) : bool :=
  existsb (N.eqb (slow c)) [45; 8211; 8212; 116; 111]%N.

(** A cased literal under IGNORECASE: the character of the text is lowered
    by [tolower] and compared with the literal and with the literal's other
    lower-case forms in sre's table of equivalences; of the letters of
    "present" and "current" only "s" has one, U+017F (long s). *)
Definition ci_char (p : N) (c : uchar) : bool :=
  (slow c =? p)%N || ((p =? 115)%N && (slow c =? 383)%N).

Fixpoint match_ci (pat : pystr) (rest : list uchar)
  : option (list uchar * list uchar) :=
  match pat with
  | [] => Some ([], rest)
  | p :: pat' =>
      match rest with
      | c :: rest' =>
          if ci_char p c then
            match match_ci pat' rest' with
            | Some (tok, rest'') => Some (c :: tok, rest'')
            | None => None
            end
          else None
      | [] => None
      end
  end.

(** [(\b(20\d{2}|present|current)\b)] once the leading [\b] holds: the
    alternatives in their order, each kept only if [\b] holds after it. *)
Definition end_token (rest : list uchar) : option (list uchar * list uchar) :=
  let closed (m : option (list uchar * list uchar)) :=
    match m with
    | Some (tok, rest') =>
        if boundary (last tok) rest' then Some (tok, rest') else None
    | None => None
    end in
  match closed (year_token rest) with
  | Some r => Some r
  | None =>
      match closed (match_ci (u "present") rest) with
      | Some r => Some r
      | None => closed (match_ci (u "current") rest)
      end
  end.

(** A match of the range pattern as [re.findall] reports it: the four
    groups. *)
Definition groups : Type := list uchar * list uchar * list uchar * list uchar.

(** [(\b(20\d{2})\b)\s*[-–—to]\s*(\b(20\d{2}|present|current)\b)] with
    re.IGNORECASE at a position: the groups and what follows the match. *)
Definition range_at (prev : option uchar) (rest : list uchar)
  : option (groups * list uchar) :=
  match year_at prev rest with
  | Some (start, rest1) =>
      spaces_then
        (fun _ rest2 =>
           match rest2 with
           | c :: rest3 =>
               if separator c then
                 spaces_then
                   (fun prev4 rest4 =>
                      if boundary prev4 rest4 then
                        match end_token rest4 with
                        | Some (tok, rest5) => Some ((start, start, tok, tok), rest5)
                        | None => None
                        end
                      else None)
                   (Some c) rest3
               else None
           | [] => None
           end)
        (last start) rest1
  | None => None
  end.

(** [re.findall]: the leftmost match, then the leftmost one that starts at
    or after its end, and so on.  [skip] counts the characters of the last
    match that are still to be passed. *)
Fixpoint findall {A} (m : option uchar -> list uchar -> option (A * list uchar))
         (skip : nat) (prev : option uchar) (rest : list uchar) : list A :=
  match skip with
  | S n =>
      match rest with
      | [] => []
      | c :: rest' => findall m n (Some c) rest'
      end
  | O =>
      match m prev rest with
      | Some (a, after) =>
          a :: match rest with
               | [] => []
               | c :: rest' =>
                   findall m (length rest - length after - 1) (Some c) rest'
               end
      | None =>
          match rest with
          | [] => []
          | c :: rest' => findall m 0 (Some c) rest'
          end
      end
  end.

Definition year_ranges_of (text : list uchar) : list groups :=
  findall range_at 0 None text.

Definition years_of (text : list uchar) : list (list uchar) :=
  findall year_at 0 None text.

(** ** The experience estimate *)

#[global] Instance uchar_eq_dec : EqDecision uchar.
Proof. solve_decision. Defined.

#[global] Instance uchar_countable : Countable uchar.
Proof.
  refine (inj_countable'
            (fun c => (cp c, alnum c, space c, dec c, slow c, low c,
                       is_cased c, case_ign c))
            (fun t => let '(a, b, c, d, e, f, g, h) := t in
                      UChar a b c d e f g h) _).
  intros []; reflexivity.
Defined.

(** [current_year if end_year_str.lower() in ['present', 'current']
     else int(end_year_str)] *)
Definition end_year_of (current_year : Z) (end_year_str : list uchar)
  : result Z :=
  if bool_decide (str_lower end_year_str ∈ [u "present"; u "current"])
  then Return current_year
  else int end_year_str.

(** The loop over [year_ranges], [max_duration] being its variable. *)
Fixpoint longest_range (current_year : Z) (year_ranges : list groups)
         (max_duration : Z) : result Z :=
  match year_ranges with
  | [] => Return max_duration
  | (start_year_str, _, end_year_str, _) :: more =>
      start_year ← int start_year_str;
      end_year ← end_year_of current_year end_year_str;
      let duration := end_year - start_year in
      longest_range current_year more
        (if max_duration <? duration then duration else max_duration)
  end.

Definition experience_years (current_year : Z) (text : list uchar)
  : result Z :=
  match year_ranges_of text with
  | [] =>
      match years_of text with
      | [] => Return 0
      | years =>
          ints ← mapM int (elements (list_to_set years : gset (list uchar)));
          let unique_years := sorted_int ints in
          Return (if (1 <? length unique_years)%nat
                  then default 0 (last unique_years) - default 0 (head unique_years)
                  else 1)
      end
  | year_ranges =>
      max_duration ← longest_range current_year year_ranges 0;
      Return (if 0 <? max_duration then max_duration else 1)
  end.

(** [current_year] is what [datetime.now().year] returns. *)
Definition _get_experience_years (U : UnicodeData) (current_year : Z)
           (text : pystr) : result Z :=
  experience_years current_year (annotate U text).





(** ** Numbers and text of the result *)

(** A Python number: [min(x, 100)] returns the [int] 100 itself when it is
    the smaller one. *)
Inductive pynum :=
| PyInt (z : Z)
| PyFloat (f : float).

(** [float(n)] for a count (exact below 2^53). *)
Definition float_of_count (n : nat) : float :=
  PrimFloat.of_uint63 (Uint63.of_Z (Z.of_nat n)).

Definition to_float (x : pynum) : float :=
  match x with
  | PyInt z => PrimFloat.of_uint63 (Uint63.of_Z z)
  | PyFloat f => f
  end.

(** [str(n)] for an integer. *)
Definition str_of_int (n : Z) : pystr :=
  u (DecimalString.NilZero.string_of_int (Z.to_int n)).

(** [needle in text] for strings. *)
Fixpoint is_prefix (needle hay : pystr) : bool :=
  match needle, hay with
  | [], _ => true
  | _ :: _, [] => false
  | x :: n', y :: h' => (x =? y)%N && is_prefix n' h'
  end.

Fixpoint contains (needle hay : pystr) : bool :=
  is_prefix needle hay ||
  match hay with
  | [] => false
  | _ :: hay' => contains needle hay'
  end.

(** ** The world: files, clock and console *)

(** What [fitz.open] and [page.get_text()] make of a file: the text of its
    pages, or an exception raised somewhere on the way. *)
Inductive document :=
| Pages (texts : list pystr)
| Unreadable (e : pystr).

Record world := World {
  files : pystr -> document;
  year_now : Z;              (* datetime.now().year *)
  opened : list pystr;       (* paths given to fitz.open so far *)
  stdout : list pystr;       (* lines printed so far *)
}.

Definition io (A : Type) : Type := world -> result A * world.

#[global] Instance io_ret : MRet io := fun _ a w => (Return a, w).

#[global] Instance io_bind : MBind io := fun _ _ k m w =>
  match m w with
  | (Return a, w') => k a w'
  | (Raise e, w') => (Raise e, w')
  end.

Definition raise {A} (e : exn) : io A := fun w => (Raise e, w).

Definition lift {A} (r : result A) : io A := fun w => (r, w).

Definition fitz_open (filepath : pystr) : io document := fun w =>
  (Return (files w filepath),
   World (files w) (year_now w) (opened w ++ [filepath]) (stdout w)).

Definition print (line : pystr) : io unit := fun w =>
  (Return tt, World (files w) (year_now w) (opened w) (stdout w ++ [line])).

Definition datetime_now_year : io Z := fun w => (Return (year_now w), w).

(** ** Core parsing functions *)

Definition _extract_text_from_pdf (U : UnicodeData) (filepath : pystr)
  : io pystr :=
  doc ← fitz_open filepath;
  match doc with
  | Pages texts => mret (str_lower (annotate U (concat texts)))
  | Unreadable e =>
      _ ← print (u "Error reading PDF " ++ filepath ++ u ": " ++ e);
      mret []
  end.

Record scores := Scores {
  Total_Score_Bias_Free : float;
  F_semantic_scaled : pynum;
  F_keyword_scaled : float;
  Recommendation : pystr;
  Explanation : pystr;
  Skill_Gaps : list pystr;
  Top_Skills : list pystr;
}.

(** The two dictionaries [parse_and_score_resume] returns. *)
Inductive analysis :=
| ErrorDict (error : pystr)
| Scored (s : scores).

(** The positive keywords found in the text, each counted once per entry. *)
Definition semantic_count (keywords : list pystr) (text : pystr) : nat :=
  length (filter (fun keyword => contains keyword text = true) keywords).

(** [min((semantic_score / 5) * 100, 100)] *)
Definition semantic_scaled (semantic_score : nat) : pynum :=
  let x := (float_of_count semantic_score / 5 * 100)%float in
  if (100 <? x)%float then PyInt 100 else PyFloat x.

(** The loop over the mandatory keywords: [(keywords_found, skill_gaps)]. *)
Definition mandatory_scan (keywords extracted_skills : list pystr)
  : nat * list pystr :=
  (length (filter (fun req_skill => req_skill ∈ extracted_skills) keywords),
   filter (fun req_skill => req_skill ∉ extracted_skills) keywords).

(** The chain of [if]/[elif] that chooses the recommendation and its
    explanation. *)
Definition recommend (extracted_experience exp_min exp_max : Z)
           (total_score : float) : pystr * pystr :=
  if exp_max <? extracted_experience then
    (u "Potential Fit (Overqualified)",
     u "Candidate has ~" ++ str_of_int extracted_experience ++
     u " years of experience, exceeding the role's maximum of " ++
     str_of_int exp_max ++ u " years.")
  else if extracted_experience <? exp_min then
    (u "Not a Fit (Underqualified)",
     u "Candidate has only ~" ++ str_of_int extracted_experience ++
     u " years of experience, below the minimum " ++
     str_of_int exp_min ++ u " years required.")
  else if (80 <=? total_score)%float then
    (u "Strong Fit",
     u "Candidate's ~" ++ str_of_int extracted_experience ++
     u " years of experience is a perfect match for this role, with strong keyword alignment.")
  else if (60 <=? total_score)%float then
    (u "Good Fit",
     u "Candidate meets the experience criteria and has a good set of matching skills.")
  else
    (u "Near-Fit Candidate (Offer Learning Path)",
     u "Candidate meets the experience criteria but has some skill gaps that could be addressed with training.").

Definition parse_and_score_resume (U : UnicodeData)
           (filepath role_name : pystr) : io analysis :=
  match JOB_ROLES !! role_name with
  | None => raise (ValueError (u "Invalid role '" ++ role_name ++ u "'."))
  | Some role_reqs =>
      text ← _extract_text_from_pdf U filepath;
      match text with
      | [] => mret (ErrorDict (u "Could not read text from the resume file."))
      | _ =>
          current_year ← datetime_now_year;
          extracted_experience ← lift (_get_experience_years U current_year text);
          let extracted_skills := _find_skills U text in
          let semantic_score_scaled :=
            semantic_scaled (semantic_count (positive_keywords role_reqs) text) in
          let '(keywords_found, skill_gaps) :=
            mandatory_scan (mandatory_keywords role_reqs) extracted_skills in
          match mandatory_keywords role_reqs with
          | [] => raise ZeroDivisionError
          | _ =>
              let keyword_score_scaled :=
                (float_of_count keywords_found /
                 float_of_count (length (mandatory_keywords role_reqs)) * 100)%float in
              let total_score :=
                (to_float semantic_score_scaled * 0.5 + keyword_score_scaled * 0.5)%float in
              let '(exp_min, exp_max) := experience_range role_reqs in
              let '(recommendation, explanation) :=
                recommend extracted_experience exp_min exp_max total_score in
              mret (Scored (Scores total_score semantic_score_scaled
                              keyword_score_scaled recommendation explanation
                              skill_gaps extracted_skills))
          end
      end
  end.

(** ** Vocabulary of the statements *)

(** [c] is a word character ([\w]) of the database [U]. *)
Definition word_cp (U : UnicodeData) (c : N) : bool :=
  isalnum U c || (c =? 95)%N.

(** The text before (after) an occurrence ends (starts) with a word
    character. *)
Definition word_before (U : UnicodeData) (pre : pystr) : bool :=
  match last pre with Some c => word_cp U c | None => false end.

Definition word_after (U : UnicodeData) (post : pystr) : bool :=
  match head post with Some c => word_cp U c | None => false end.

(** [s] stands in [text] as a whole word: between [pre] and [post], with no
    word character next to it on either side. *)
Definition whole_word_in (U : UnicodeData) (s text : pystr) : Prop :=
  exists pre post, text = pre ++ s ++ post /\
    word_before U pre = false /\ word_after U post = false.

(** Both ends of a catalog entry are word characters, and its code points
    are [basic]. *)
Definition word_edged (s : pystr) : bool :=
  forallb basic s &&
  match head s, last s with
  | Some a, Some b => word_cp basic_tables a && word_cp basic_tables b
  | _, _ => false
  end.

(** The character before the position reached after [tok]. *)
Definition prev_after (prev : option uchar) (tok : list uchar) : option uchar :=
  match last tok with Some c => Some c | None => prev end.

(** "present" spelt with U+017F (long s). *)
Definition long_s_present : pystr := u "pre" ++ [383%N] ++ u "ent".

(** The year a token of digits denotes. *)
Definition year_value (tok : list uchar) : Z :=
  default 0 (int_digits 0 tok).

(** [max(l)] and [min(l)] of a list of integers. *)
Definition max_of (l : list Z) : Z := foldr Z.max (default 0 (head l)) l.
Definition min_of (l : list Z) : Z := foldr Z.min (default 0 (head l)) l.

(** The distinct standalone year tokens of a text, as [set(years)] holds
    them, and the years they denote. *)
Definition distinct_years (U : UnicodeData) (text : pystr) : list (list uchar) :=
  elements (list_to_set (years_of (annotate U text)) : gset (list uchar)).

Definition distinct_year_values (U : UnicodeData) (text : pystr) : list Z :=
  year_value <$> distinct_years U text.

(** What one match of the range pattern contributes: [end_year - start_year]
    as the loop computes it. *)
Definition duration_of (current_year : Z) (g : groups) : result Z :=
  let '(start_year_str, _, end_year_str, _) := g in
  start_year ← int start_year_str;
  end_year ← end_year_of current_year end_year_str;
  Return (end_year - start_year).

(** The text [_extract_text_from_pdf] returns for a document. *)
Definition extracted_text (U : UnicodeData) (doc : document) : pystr :=
  match doc with
  | Pages texts => str_lower (annotate U (concat texts))
  | Unreadable _ => []
  end.

(** A world in which no file can be read. *)
Definition broken_world : world :=
  World (fun _ => Unreadable (u "cannot open broken document")) 2026 [] [].

(** A world with one resume, of one page. *)
Definition one_file_world (filepath page : pystr) (year : Z) : world :=
  World (fun p => if decide (p = filepath) then Pages [page]
                  else Unreadable (u "no such file"))
        year [] [].

(** The scores the analysis arrives at for a text, given the experience
    estimate of that text (see [parse_run] for the link to the function). *)
Definition keyword_score (role_reqs : role) (extracted_skills : list pystr)
  : float :=
  (float_of_count (fst (mandatory_scan (mandatory_keywords role_reqs)
                                       extracted_skills)) /
   float_of_count (length (mandatory_keywords role_reqs)) * 100)%float.

Definition total_score_of (U : UnicodeData) (role_reqs : role) (text : pystr)
  : float :=
  (to_float (semantic_scaled (semantic_count (positive_keywords role_reqs) text))
   * 0.5 +
   keyword_score role_reqs (_find_skills U text) * 0.5)%float.

Definition scores_for (U : UnicodeData) (role_reqs : role) (text : pystr)
           (extracted_experience : Z) : scores :=
  let verdict :=
    recommend extracted_experience
              (fst (experience_range role_reqs)) (snd (experience_range role_reqs))
              (total_score_of U role_reqs text) in
  Scores (total_score_of U role_reqs text)
         (semantic_scaled (semantic_count (positive_keywords role_reqs) text))
         (keyword_score role_reqs (_find_skills U text))
         (fst verdict) (snd verdict)
         (snd (mandatory_scan (mandatory_keywords role_reqs) (_find_skills U text)))
         (_find_skills U text).

(** ** Further vocabulary *)

(** Strictly before, in the order of [sorted] on strings. *)
Definition str_lt (a b : pystr) : Prop := str_le a b /\ a <> b.

(** The text and the number of the year 20ab, for decimal digits a and b. *)
Definition year_text (a b : N) : pystr := [50; 48; 48 + a; 48 + b]%N.
Definition year_number (a b : N) : Z := 2000 + 10 * Z.of_N a + Z.of_N b.

(** The decimal digit a as a character of a text, with its properties. *)
Definition digit_char (a : N) : uchar :=
  UChar (48 + a) true false (Some (Z.of_N a)) (48 + a) [(48 + a)%N]
        false false.

(** ASCII lower-casing of one code point. *)
Definition ascii_tolower (c : N) : N :=
  if ascii_upper c then (c + 32)%N else c.

Definition is_ascii (c : N) : bool := (c <? 128)%N.

(** The total score for [c] positive keywords and [k] of [n] mandatory
    keywords found. *)
Definition total_for (c k n : nat) : float :=
  (to_float (semantic_scaled c) * 0.5 +
   float_of_count k / float_of_count n * 100 * 0.5)%float.

(** The scale of the semantic score: 20 for each keyword up to five. *)
Definition semantic_steps : list pynum :=
  [PyFloat 0; PyFloat 20; PyFloat 40; PyFloat 60; PyFloat 80; PyFloat 100;
   PyInt 100; PyInt 100; PyInt 100; PyInt 100; PyInt 100].

(** [k] occurs somewhere in [text], as a substring. *)
Definition occurs_in (k text : pystr) : Prop :=
  exists pre post, text = pre ++ k ++ post.

(** What the table of total scores is checked for: the total lies between 0
    and 100; with no mandatory keyword found it is below 60; and 80 is only
    reached with three positive keywords and at most two fifths of the
    mandatory keywords missing. *)
Definition total_ok (c k n : nat) : bool :=
  let t := total_for c k n in
  (0 <=? t)%float && (t <=? 100)%float &&
  (if (k =? 0)%nat then negb (60 <=? t)%float else true) &&
  (if (80 <=? t)%float
   then (3 <=? c)%nat && (5 * (n - k) <=? 2 * n)%nat else true).

(** The database that also knows the fullwidth digits U+FF10 to U+FF19:
    decimal digits 0 to 9 and alphanumeric, as in Unicode; otherwise as
    [basic_tables]. *)
Definition fullwidth_digit (c : N) : bool := ((65296 <=? c) && (c <=? 65305))%N.

Definition fullwidth_tables : UnicodeData := {|
  isalnum c := isalnum basic_tables c || fullwidth_digit c;
  isspace := isspace basic_tables;
  decimal c := if fullwidth_digit c then Some (Z.of_N c - 65296)
               else decimal basic_tables c;
  tolower := tolower basic_tables;
  lower_full := lower_full basic_tables;
  cased := cased basic_tables;
  case_ignorable := case_ignorable basic_tables;
|}.

(** ** The web handler ([app.py]) *)

Inductive http_exception := HTTPException (status_code : Z) (detail : pystr).

(** An uploaded file: its name ([None] or [""] when the form carries none)
    and what fitz makes of the file once its bytes are on disk under that
    name.  fitz is handed the path, so [payload] describes the bytes and
    the name together: two uploads with different names are not compared
    through it. *)
Record upload_file := UploadFile {
  filename : option pystr;
  payload : document;
}.

(** The machine the handler runs on.  [save_error] is the exception that
    [open(path, "wb")] or [shutil.copyfileobj] raises for a path, if any;
    what a failed save leaves on disk is not modelled.  Removing a file that
    the handler has just written is taken to succeed.  [on_disk] and the
    files of [sys] are looked up by the path as it is written: that two
    different paths can name one file ("temp_uploads/../app.py" and
    "app.py") is not modelled, so only what the handler does at the path it
    uses itself is read off this model. *)
Record server := Server {
  sys : world;
  on_disk : pystr -> bool;               (* os.path.exists *)
  save_error : pystr -> option pystr;
  path_join : pystr -> pystr -> pystr;   (* os.path.join *)
  missing_file : pystr -> pystr;         (* fitz's message for a missing file *)
}.

(** The context handed to the template "index.html". *)
Inductive response := TemplateResponse (result : analysis) (role_name : pystr).

Definition UPLOAD_FOLDER : pystr := u "temp_uploads".

(** [str(e)] *)
Definition str_of_exn (e : exn) : pystr :=
  match e with
  | ValueError msg => msg
  | ZeroDivisionError => u "division by zero"
  end.

Definition with_file (w : world) (path : pystr) (doc : document) : world :=
  World (fun p => if decide (p = path) then doc else files w p)
        (year_now w) (opened w) (stdout w).

(** [with open(filepath, "wb") as buffer: shutil.copyfileobj(...)] *)
Definition save_upload (filepath : pystr) (doc : document) (srv : server)
  : server :=
  Server (with_file (sys srv) filepath doc)
         (fun p => if decide (p = filepath) then true else on_disk srv p)
         (save_error srv) (path_join srv) (missing_file srv).

(** [if os.path.exists(filepath): os.remove(filepath)], in the world [w]
    that the analysis left. *)
Definition remove_upload (filepath : pystr) (w : world) (srv : server)
  : server :=
  if on_disk srv filepath then
    Server (with_file w filepath (Unreadable (missing_file srv filepath)))
           (fun p => if decide (p = filepath) then false else on_disk srv p)
           (save_error srv) (path_join srv) (missing_file srv)
  else
    Server w (on_disk srv) (save_error srv) (path_join srv) (missing_file srv).

Definition upload_file_and_score (U : UnicodeData) (file : upload_file)
           (role_name : pystr) (srv : server)
  : (response + http_exception) * server :=
  match filename file with
  | None | Some [] => (inr (HTTPException 400 (u "No file uploaded.")), srv)
  | Some name =>
      let filepath := path_join srv UPLOAD_FOLDER name in
      match save_error srv filepath with
      | Some e =>
          (inr (HTTPException 500 (u "Failed to save file: " ++ e)), srv)
      | None =>
          let saved := save_upload filepath (payload file) srv in
          match parse_and_score_resume U filepath role_name (sys saved) with
          | (Return analysis_result, w) =>
              (inl (TemplateResponse analysis_result role_name),
               remove_upload filepath w saved)
          | (Raise (ValueError msg), w) =>
              (inr (HTTPException 400 (str_of_exn (ValueError msg))),
               remove_upload filepath w saved)
          | (Raise e, w) =>
              let '(_, w') :=
                print (u "FATAL PROCESSING ERROR: " ++ str_of_exn e) w in
              (inr (HTTPException 500
                      (u "An error occurred during analysis: " ++ str_of_exn e)),
               remove_upload filepath w' saved)
          end
      end
  end.

(** * Properties *)

(** ** The database on basic text *)

Lemma unicode_ok_basic : unicode_ok basic_tables.
Proof. intros c _. reflexivity. Qed.

Lemma annotate_basic U s :
  unicode_ok U -> forallb basic s = true ->
  annotate U s = annotate basic_tables s.
Proof.
  intros HU. unfold annotate.
  induction s as [|c s IH]; [reflexivity|].
  intros [Hc Hs]%andb_prop. cbn [fmap list_fmap].
  f_equal; [apply HU, Hc | apply IH, Hs].
Qed.

Lemma word_cp_basic U c :
  unicode_ok U -> basic c = true -> word_cp U c = word_cp basic_tables c.
Proof.
  intros HU Hc. unfold word_cp.
  change (isalnum U c) with (alnum (classify U c)).
  rewrite (HU c Hc). reflexivity.
Qed.

Lemma is_word_classify U c : is_word (classify U c) = word_cp U c.
Proof. reflexivity. Qed.

Lemma codes_annotate U s : codes (annotate U s) = s.
Proof.
  unfold codes, annotate. rewrite <- list_fmap_compose.
  induction s as [|c s IH]; [reflexivity|]. cbn. by rewrite IH.
Qed.

Lemma word_opt_last_annotate U s :
  word_opt (last (annotate U s)) = word_before U s.
Proof.
  unfold word_before, annotate. rewrite fmap_last.
  destruct (last s); reflexivity.
Qed.

Lemma word_opt_head_annotate U s :
  word_opt (head (annotate U s)) = word_after U s.
Proof. destruct s; reflexivity. Qed.

(** Evaluation on a text of basic code points: the database is replaced by
    its basic part and the rest is computation. *)
Ltac on_basic HU :=
  unfold _find_skills, _get_experience_years;
  rewrite (annotate_basic _ _ HU) by (vm_compute; reflexivity);
  vm_compute.

(** ** [re.search] and the skill pattern *)

Lemma prev_after_cons prev c tok :
  prev_after prev (c :: tok) = prev_after (Some c) tok.
Proof.
  unfold prev_after. destruct tok as [|d tok]; [reflexivity|].
  rewrite last_cons. destruct (last (d :: tok)) eqn:E; [reflexivity|].
  by apply last_None in E.
Qed.

Lemma match_lit_Some pat prev rest prev' rest' :
  match_lit pat prev rest = Some (prev', rest') <->
  exists tok, rest = tok ++ rest' /\ codes tok = pat /\
              prev' = prev_after prev tok.
Proof.
  revert prev rest. induction pat as [|p pat IH]; intros prev rest; cbn.
  - split.
    + intros [= <- <-]. exists []. done.
    + intros (tok & -> & Hc & ->). destruct tok; [done|discriminate].
  - destruct rest as [|c rest].
    + split; [done|]. intros ([|] & H1 & H2 & _); discriminate.
    + destruct (N.eqb_spec (cp c) p) as [Heq|Hne].
      * rewrite IH. split.
        -- intros (tok & -> & <- & ->). exists (c :: tok).
           rewrite prev_after_cons. unfold codes. cbn. by rewrite Heq.
        -- intros ([|d tok] & H1 & H2 & H3); [discriminate|].
           unfold codes in H2. cbn in H1, H2. simplify_eq.
           exists tok. by rewrite prev_after_cons.
      * split; [done|].
        intros ([|d tok] & H1 & H2 & _); [discriminate|].
        unfold codes in H2. cbn in H1, H2. simplify_eq.
Qed.

Lemma search_true m prev rest :
  search m prev rest = true <->
  exists pre post, rest = pre ++ post /\ m (prev_after prev pre) post = true.
Proof.
  revert prev. induction rest as [|c rest IH]; intros prev; cbn.
  - rewrite orb_false_r. split.
    + intros H. exists [], []. done.
    + intros (pre & post & H & Hm). symmetry in H.
      apply app_eq_nil in H as [-> ->]. done.
  - rewrite orb_true_iff, IH. split.
    + intros [H | (pre & post & -> & Hm)].
      * exists [], (c :: rest). done.
      * exists (c :: pre), post. by rewrite prev_after_cons.
    + intros ([|d pre] & post & H & Hm).
      * cbn in H. subst post. by left.
      * cbn in H. injection H as <- ->. right. exists pre, post.
        by rewrite prev_after_cons in Hm.
Qed.

Lemma find_skills_elem s text :
  s ∈ find_skills text <->
  s ∈ SKILLS_DB /\ search (skill_at s) None text = true.
Proof.
  unfold find_skills, sorted_str.
  rewrite merge_sort_Permutation, elem_of_elements, elem_of_list_to_set.
  rewrite list_elem_of_filter. tauto.
Qed.

Lemma prev_after_None tok : prev_after None tok = last tok.
Proof. unfold prev_after. by destruct (last tok). Qed.

Lemma prev_after_last a b : prev_after (last a) b = last (a ++ b).
Proof. unfold prev_after. by rewrite last_app. Qed.

(** A catalog entry is reported exactly when it is in the catalog and stands
    somewhere in the text with [\b] holding before and after it. *)
Lemma skill_detected U s text :
  s ∈ _find_skills U text <->
  s ∈ SKILLS_DB /\
  exists pre post, text = pre ++ s ++ post /\
    xorb (word_before U pre) (word_after U (s ++ post)) = true /\
    xorb (word_before U (pre ++ s)) (word_after U post) = true.
Proof.
  unfold _find_skills. rewrite find_skills_elem, search_true.
  apply and_iff_compat_l. split.
  - intros (pre_a & post_a & Htext & Hm).
    apply fmap_app_inv in Htext as (pre & post0 & -> & -> & ->).
    unfold skill_at in Hm. apply andb_prop in Hm as [Hb1 Hm].
    destruct (match_lit _ _ _) as [[prev' rest']|] eqn:Hlit; [|done].
    apply match_lit_Some in Hlit as (tok & Hpost & Hcodes & ->).
    apply fmap_app_inv in Hpost as (t & post & -> & -> & ->).
    fold (annotate U t) in Hcodes. rewrite codes_annotate in Hcodes. subst t.
    exists pre, post. split; [done|].
    rewrite prev_after_None in Hb1, Hm. rewrite prev_after_last in Hm.
    unfold boundary in Hb1, Hm.
    rewrite <- fmap_app in Hm.
    change (fmap (classify U)) with (annotate U) in Hb1, Hm.
    rewrite word_opt_last_annotate, word_opt_head_annotate in Hb1, Hm.
    done.
  - intros (pre & post & -> & Hb1 & Hb2).
    exists (annotate U pre), (annotate U (s ++ post)).
    split; [unfold annotate; by rewrite !fmap_app|].
    unfold skill_at. rewrite prev_after_None.
    unfold boundary at 1.
    rewrite word_opt_last_annotate, word_opt_head_annotate, Hb1. cbn.
    destruct (match_lit s (last (annotate U pre)) (annotate U (s ++ post)))
      as [[prev' rest']|] eqn:Hlit.
    + apply match_lit_Some in Hlit as (tok & Hpost & Hcodes & ->).
      unfold annotate in Hpost. rewrite fmap_app in Hpost.
      assert (tok = annotate U s) as ->.
      { subst s. clear -Hpost. unfold codes in Hpost.
        revert Hpost. generalize (classify U <$> post). intros l.
        induction tok as [|c tok IH]; cbn; intros H.
        - done.
        - injection H as H1 H2. rewrite <- H1. f_equal. by apply IH. }
      unfold annotate in Hpost. apply app_inv_head in Hpost as <-.
      rewrite prev_after_last. unfold boundary.
      unfold annotate. rewrite <- fmap_app.
      change (fmap (classify U)) with (annotate U).
      by rewrite word_opt_last_annotate, word_opt_head_annotate.
    + exfalso.
      assert (match_lit s (last (annotate U pre)) (annotate U (s ++ post))
              = Some (prev_after (last (annotate U pre)) (annotate U s),
                      annotate U post)) as H; [|congruence].
      apply match_lit_Some. exists (annotate U s).
      split; [unfold annotate; by rewrite fmap_app|].
      split; [apply codes_annotate|done].
Qed.

Lemma word_after_app U a s post : word_after U ((a :: s) ++ post) = word_cp U a.
Proof. reflexivity. Qed.

Lemma word_before_app U pre s b :
  last s = Some b -> word_before U (pre ++ s) = word_cp U b.
Proof. intros H. unfold word_before. by rewrite last_app, H. Qed.

(** Both [\b] of the pattern, for an entry whose ends are word characters:
    no word character on either side. *)
Lemma word_edged_detected U s text :
  unicode_ok U -> word_edged s = true ->
  (s ∈ _find_skills U text <-> s ∈ SKILLS_DB /\ whole_word_in U s text).
Proof.
  intros HU [Hbasic Hedge]%andb_prop.
  rewrite skill_detected. apply and_iff_compat_l. unfold whole_word_in.
  destruct s as [|a s]; [done|]. cbn [head] in Hedge.
  destruct (last (a :: s)) as [b|] eqn:Hlast; [|done].
  apply andb_prop in Hedge as [Ha Hb].
  assert (word_cp U a = true) as Ha'.
  { rewrite word_cp_basic; [done..|]. by apply andb_prop in Hbasic as [? _]. }
  assert (word_cp U b = true) as Hb'.
  { rewrite word_cp_basic; [done..|].
    apply last_Some_elem_of in Hlast.
    rewrite forallb_forall in Hbasic. apply Hbasic. by apply list_elem_of_In. }
  split; intros (pre & post & Ht & H1 & H2); exists pre, post;
    (split; [done|]); rewrite word_after_app, Ha' in *;
    rewrite (word_before_app _ _ _ _ Hlast), Hb' in *;
    destruct (word_before U pre), (word_after U post); done.
Qed.

Lemma catalog_word_edged s :
  s ∈ SKILLS_DB -> s ≠ u "c++" -> word_edged s = true.
Proof.
  assert (forallb (fun s => bool_decide (s = u "c++") || word_edged s)
                  SKILLS_DB = true) as H by (vm_compute; reflexivity).
  rewrite forallb_forall in H. intros Hs Hne.
  apply list_elem_of_In, H, orb_prop in Hs as [Hs|Hs]; [|done].
  by apply bool_decide_eq_true in Hs.
Qed.

Lemma find_skills_on_basic U text :
  unicode_ok U -> forallb basic text = true ->
  _find_skills U text = _find_skills basic_tables text.
Proof. intros HU Hb. unfold _find_skills. by rewrite (annotate_basic _ _ HU Hb). Qed.

(** C2, as the code has it.  On the catalog entries whose two ends are word
    characters (all but "c++") detection is bounded by [\b]: an entry is
    reported exactly when it stands in the text with no word character
    (letter, digit, underscore) right before or after it, so never when it
    only occurs inside a longer run of word characters ("r" is not reported
    for "reporting").  "&" is not a word character: "r" is reported for
    "r&d team", as it is for "proficient in r for statistics". *)
Theorem skill_detection_is_token_bounded U :
  unicode_ok U ->
  (forall s text, s ∈ SKILLS_DB -> s ≠ u "c++" ->
     (s ∈ _find_skills U text <-> whole_word_in U s text)) /\
  u "r" ∈ _find_skills U (u "r&d team") /\
  u "r" ∈ _find_skills U (u "proficient in r for statistics") /\
  u "r" ∉ _find_skills U (u "reporting").
Proof.
  intros HU. split; [|split; [|split]].
  - intros s text Hs Hne.
    rewrite (word_edged_detected U s text HU (catalog_word_edged s Hs Hne)).
    tauto.
  - rewrite (find_skills_on_basic U _ HU) by (vm_compute; reflexivity).
    replace (_find_skills basic_tables (u "r&d team")) with [u "r"]
      by (vm_compute; reflexivity).
    apply list_elem_of_singleton. reflexivity.
  - rewrite (find_skills_on_basic U _ HU) by (vm_compute; reflexivity).
    replace (_find_skills basic_tables (u "proficient in r for statistics"))
      with [u "r"] by (vm_compute; reflexivity).
    apply list_elem_of_singleton. reflexivity.
  - rewrite (find_skills_on_basic U _ HU) by (vm_compute; reflexivity).
    replace (_find_skills basic_tables (u "reporting"))
      with (@nil pystr) by (vm_compute; reflexivity).
    apply not_elem_of_nil.
Qed.

Lemma skill_detection_is_token_bounded_witness :
  u "sql" ∈ _find_skills basic_tables (u "mysql, sql and r") <->
  whole_word_in basic_tables (u "sql") (u "mysql, sql and r").
Proof.
  apply (proj1 (skill_detection_is_token_bounded basic_tables
                  unicode_ok_basic)).
  - vm_compute. do 3 apply list_elem_of_further. apply list_elem_of_here.
  - discriminate.
Defined.

(** C2 as stated fails: for the text "r&d team" the skill "r" is reported. *)
Lemma r_and_d_team_reports_r :
  u "r" ∈ _find_skills basic_tables (u "r&d team").
Proof.
  replace (_find_skills basic_tables (u "r&d team")) with [u "r"]
    by (vm_compute; reflexivity).
  apply list_elem_of_singleton. reflexivity.
Qed.

(** C9.  "c++" is not reported when no occurrence of it in the text is
    followed by a word character (each is followed by a non-word character
    or by the end of the text): after "+" the closing [\b] asks for a word
    character.  So "c++ developer" does not yield "c++". *)
Theorem cpp_needs_a_following_word_character U :
  unicode_ok U ->
  (forall text,
     (forall pre post, text = pre ++ u "c++" ++ post ->
                       word_after U post = false) ->
     u "c++" ∉ _find_skills U text) /\
  u "c++" ∉ _find_skills U (u "c++ developer").
Proof.
  intros HU. split.
  - intros text Hocc [_ (pre & post & Ht & _ & Hb)]%skill_detected.
    rewrite (word_before_app U pre (u "c++") 43%N) in Hb by reflexivity.
    rewrite (word_cp_basic U 43 HU) in Hb by reflexivity.
    rewrite (Hocc pre post Ht) in Hb. discriminate.
  - rewrite (find_skills_on_basic U _ HU) by (vm_compute; reflexivity).
    replace (_find_skills basic_tables (u "c++ developer"))
      with (@nil pystr) by (vm_compute; reflexivity).
    apply not_elem_of_nil.
Qed.

Lemma cpp_needs_a_following_word_character_witness :
  u "c++" ∉ _find_skills basic_tables (u "c++").
Proof.
  apply (proj1 (cpp_needs_a_following_word_character basic_tables
                  unicode_ok_basic)).
  intros pre post Ht. apply (f_equal length) in Ht.
  rewrite !length_app in Ht. change (length (u "c++")) with 3%nat in Ht.
  destruct post; [reflexivity|]. cbn in Ht. lia.
Defined.

(** ** The experience estimate *)

(** C1, what the code does on the claim's phrase.  In the class [[-–—to]]
    "t" and "o" are two single characters, so "2018 to Present" is no range:
    the estimate falls back to the standalone years and is 1, whatever the
    current year. *)
Theorem to_present_is_not_matched U current_year :
  unicode_ok U ->
  year_ranges_of (annotate U (u "2018 to Present")) = [] /\
  _get_experience_years U current_year (u "2018 to Present") = Return 1 /\
  _get_experience_years U current_year (u "2018 to present") = Return 1.
Proof.
  intros HU. repeat split.
  - rewrite (annotate_basic _ _ HU) by (vm_compute; reflexivity).
    vm_compute. reflexivity.
  - on_basic HU. reflexivity.
  - on_basic HU. reflexivity.
Qed.

Lemma to_present_is_not_matched_witness :
  _get_experience_years basic_tables 2026 (u "2018 to present") = Return 1.
Proof.
  apply (to_present_is_not_matched basic_tables 2026 unicode_ok_basic).
Defined.

(** C5, where the code fails.  Under IGNORECASE the "s" of "present" also
    matches U+017F (long s), which [str.lower] leaves as it is: the range
    matches, the end token is not recognised as "present", and [int] raises
    ValueError on it. *)
Theorem long_s_range_raises U current_year :
  unicode_ok U ->
  year_ranges_of (annotate U (u "2018 - " ++ long_s_present)) <> [] /\
  _get_experience_years U current_year (u "2018 - " ++ long_s_present) =
  Raise (ValueError (u "invalid literal for int() with base 10: '" ++
                       long_s_present ++ u "'")).
Proof.
  intros HU. split.
  - rewrite (annotate_basic _ _ HU) by (vm_compute; reflexivity).
    vm_compute. discriminate.
  - on_basic HU. reflexivity.
Qed.

Lemma long_s_range_raises_witness :
  _get_experience_years basic_tables 2026 (u "2018 - " ++ long_s_present) =
  Raise (ValueError (u "invalid literal for int() with base 10: '" ++
                       long_s_present ++ u "'")).
Proof.
  apply (long_s_range_raises basic_tables 2026 unicode_ok_basic).
Defined.

(** *** [re.findall] reports matches of the pattern at places of the text *)

Lemma findall_elem {A} m skip prev rest (a : A) :
  a ∈ findall m skip prev rest ->
  exists prev' rest' after,
    rest' `suffix_of` rest /\ m prev' rest' = Some (a, after).
Proof.
  revert skip prev. induction rest as [|c rest IH]; intros skip prev Ha.
  - destruct skip; cbn in Ha; [|by apply elem_of_nil in Ha].
    destruct (m prev []) as [[b after]|] eqn:Hm; [|by apply elem_of_nil in Ha].
    apply list_elem_of_singleton in Ha as ->. by exists prev, [], after.
  - assert (forall k p, a ∈ findall m k p rest ->
              exists prev' rest' after,
                rest' `suffix_of` c :: rest /\ m prev' rest' = Some (a, after))
      as IH'.
    { intros k p (prev' & rest' & after & Hs & Hm)%IH.
      exists prev', rest', after. split; [by apply suffix_cons_r|done]. }
    destruct skip; cbn in Ha; [|by eapply IH'].
    destruct (m prev (c :: rest)) as [[b after]|] eqn:Hm; [|by eapply IH'].
    apply elem_of_cons in Ha as [->|Ha]; [|by eapply IH'].
    by exists prev, (c :: rest), after.
Qed.

Lemma year_token_Some rest tok rest' :
  year_token rest = Some (tok, rest') ->
  exists c1 c2 c3 c4 d3 d4,
    tok = [c1; c2; c3; c4] /\ rest = tok ++ rest' /\
    cp c1 = 50%N /\ cp c2 = 48%N /\ dec c3 = Some d3 /\ dec c4 = Some d4.
Proof.
  unfold year_token.
  destruct rest as [|c1 [|c2 [|c3 [|c4 rest]]]]; try done.
  destruct (N.eqb_spec (cp c1) 50), (N.eqb_spec (cp c2) 48); try done.
  unfold is_decimal.
  destruct (dec c3) as [d3|] eqn:H3; [|done].
  destruct (dec c4) as [d4|] eqn:H4; [|done].
  cbn. intros [= <- <-]. by exists c1, c2, c3, c4, d3, d4.
Qed.

Lemma year_at_Some prev rest tok rest' :
  year_at prev rest = Some (tok, rest') -> year_token rest = Some (tok, rest').
Proof.
  unfold year_at. destruct (boundary prev rest); [|done].
  destruct (year_token rest) as [[t r]|]; [|done].
  destruct (boundary (last t) r); [|done]. by intros [= <- <-].
Qed.

Lemma dec_of_basic U c n :
  unicode_ok U -> c ∈ annotate U n -> basic (cp c) = true ->
  dec c = decimal basic_tables (cp c).
Proof.
  intros HU (x & -> & _)%list_elem_of_fmap Hb. cbn in Hb |- *.
  change (decimal U x) with (dec (classify U x)). by rewrite (HU x Hb).
Qed.

(** The tokens that [\b20\d{2}\b] reports are read by [int] without error. *)
Lemma int_of_year U text tok :
  unicode_ok U -> tok ∈ years_of (annotate U text) ->
  int tok = Return (year_value tok).
Proof.
  intros HU (prev & rest & after & Hsuf & Hm)%findall_elem.
  apply year_at_Some, year_token_Some in Hm
    as (c1 & c2 & c3 & c4 & d3 & d4 & -> & -> & H1 & H2 & H3 & H4).
  destruct Hsuf as [pre Hpre].
  assert (dec c1 = Some 2 /\ dec c2 = Some 0) as [E1 E2].
  { split.
    - rewrite (dec_of_basic U c1 text HU), H1; [done| |by rewrite H1].
      rewrite Hpre. set_solver.
    - rewrite (dec_of_basic U c2 text HU), H2; [done| |by rewrite H2].
      rewrite Hpre. set_solver. }
  unfold int, year_value. cbn. by rewrite E1, E2, H3, H4.
Qed.

Lemma mapM_int_values (l : list (list uchar)) :
  (forall tok, tok ∈ l -> int tok = Return (year_value tok)) ->
  mapM int l = Return (year_value <$> l).
Proof.
  induction l as [|t l IH]; intros H; [reflexivity|].
  cbn. rewrite H by set_solver. cbn. rewrite IH by set_solver. reflexivity.
Qed.

(** *** [sorted]: the first element is the minimum, the last the maximum *)

Lemma foldr_max_spec d l :
  (foldr Z.max d l = d \/ foldr Z.max d l ∈ l) /\
  d <= foldr Z.max d l /\ forall x, x ∈ l -> x <= foldr Z.max d l.
Proof.
  induction l as [|a l (Hin & Hd & Hall)]; cbn.
  - split; [by left|]. split; [lia|]. by intros x ?%elem_of_nil.
  - split; [|split].
    + destruct (Z.max_spec a (foldr Z.max d l)) as [[_ ->]|[_ ->]].
      * destruct Hin as [->|Hin]; [by left|right; by apply list_elem_of_further].
      * right. apply list_elem_of_here.
    + lia.
    + intros x [->|Hx%Hall]%elem_of_cons; lia.
Qed.

Lemma foldr_min_spec d l :
  (foldr Z.min d l = d \/ foldr Z.min d l ∈ l) /\
  foldr Z.min d l <= d /\ forall x, x ∈ l -> foldr Z.min d l <= x.
Proof.
  induction l as [|a l (Hin & Hd & Hall)]; cbn.
  - split; [by left|]. split; [lia|]. by intros x ?%elem_of_nil.
  - split; [|split].
    + destruct (Z.min_spec a (foldr Z.min d l)) as [[_ ->]|[_ ->]].
      * right. apply list_elem_of_here.
      * destruct Hin as [->|Hin]; [by left|right; by apply list_elem_of_further].
    + lia.
    + intros x [->|Hx%Hall]%elem_of_cons; lia.
Qed.

Lemma max_of_spec l :
  l <> [] -> max_of l ∈ l /\ forall x, x ∈ l -> x <= max_of l.
Proof.
  destruct l as [|a l]; [done|]. intros _. unfold max_of.
  change (default 0 (head (a :: l))) with a.
  destruct (foldr_max_spec a (a :: l)) as (Hin & _ & Hall).
  split; [|done]. destruct Hin as [Heq|Hin]; [|done].
  rewrite Heq. apply list_elem_of_here.
Qed.

Lemma min_of_spec l :
  l <> [] -> min_of l ∈ l /\ forall x, x ∈ l -> min_of l <= x.
Proof.
  destruct l as [|a l]; [done|]. intros _. unfold min_of.
  change (default 0 (head (a :: l))) with a.
  destruct (foldr_min_spec a (a :: l)) as (Hin & _ & Hall).
  split; [|done]. destruct Hin as [Heq|Hin]; [|done].
  rewrite Heq. apply list_elem_of_here.
Qed.

Lemma sorted_int_ends l :
  l <> [] ->
  head (sorted_int l) = Some (min_of l) /\
  last (sorted_int l) = Some (max_of l).
Proof.
  intros Hne. unfold sorted_int.
  pose proof (merge_sort_Permutation Z.le l) as Hperm.
  pose proof (StronglySorted_merge_sort Z.le l) as Hsorted.
  destruct (max_of_spec l Hne) as [Hmax_in Hmax].
  destruct (min_of_spec l Hne) as [Hmin_in Hmin].
  set (s := merge_sort Z.le l) in *.
  assert (forall x, x ∈ s <-> x ∈ l) as Hmem by (intros x; by rewrite Hperm).
  split.
  - destruct s as [|h s'] eqn:Es.
    + apply Permutation_nil_l in Hperm. done.
    + cbn. f_equal. apply StronglySorted_cons in Hsorted as [Hh _].
      rewrite Forall_forall in Hh.
      assert (h <= min_of l).
      { apply Hmem in Hmin_in. apply elem_of_cons in Hmin_in as [->|Hin]; [lia|].
        by apply Hh. }
      assert (min_of l <= h) by (apply Hmin, Hmem, list_elem_of_here).
      lia.
  - destruct (last s) as [t|] eqn:El.
    + f_equal. apply last_Some in El as [s' Es]. rewrite Es in Hsorted.
      assert (max_of l <= t).
      { apply Hmem in Hmax_in. rewrite Es in Hmax_in.
        apply elem_of_app in Hmax_in as [Hin|Hin];
          [|apply list_elem_of_singleton in Hin; lia].
        eapply (StronglySorted_app_1_elem_of Z.le); [done|done|].
        apply list_elem_of_here. }
      assert (t <= max_of l).
      { apply Hmax, Hmem. rewrite Es. apply elem_of_app. right.
        apply list_elem_of_here. }
      lia.
    + apply last_None in El. rewrite El in Hperm.
      apply Permutation_nil_l in Hperm. done.
Qed.

Lemma sorted_int_length l : length (sorted_int l) = length l.
Proof. unfold sorted_int. by rewrite merge_sort_Permutation. Qed.

(** *** The fallback on standalone years *)

Lemma years_distinct_nonempty U text :
  years_of (annotate U text) <> [] -> distinct_years U text <> [].
Proof.
  unfold distinct_years. destruct (years_of (annotate U text)) as [|t l]; [done|].
  intros _ H. apply elements_empty_inv in H.
  cbn in H. set_solver.
Qed.

Lemma fallback_value U text :
  unicode_ok U ->
  year_ranges_of (annotate U text) = [] ->
  forall current_year,
  _get_experience_years U current_year text =
  Return (match years_of (annotate U text) with
          | [] => 0
          | _ => if (1 <? length (distinct_years U text))%nat
                 then max_of (distinct_year_values U text) -
                      min_of (distinct_year_values U text)
                 else 1
          end).
Proof.
  intros HU Hnone current_year.
  unfold _get_experience_years, experience_years. rewrite Hnone.
  destruct (years_of (annotate U text)) as [|t l] eqn:Hyears; [reflexivity|].
  assert (distinct_years U text <> []) as Hne
    by (apply years_distinct_nonempty; by rewrite Hyears).
  unfold distinct_year_values, distinct_years in *. rewrite Hyears in *.
  set (toks := elements _) in *.
  rewrite (mapM_int_values toks).
  - cbn. rewrite sorted_int_length, length_fmap.
    destruct (sorted_int_ends (year_value <$> toks)) as [-> ->];
      [by destruct toks|reflexivity].
  - intros tok Htok. apply (int_of_year U text); [done|].
    rewrite Hyears. subst toks. by apply elem_of_elements, elem_of_list_to_set in Htok.
Qed.

(** The two branches of the estimate, in terms of what the two patterns of
    the code find: when the range pattern matches nowhere, the estimate
    comes from the tokens that the pattern of standalone years finds (0
    without any, 1 with one distinct token, and otherwise the largest value
    minus the smallest); when the range pattern matches, it is the outcome
    of the loop over the matches. *)
Lemma standalone_years_fallback U current_year text :
  unicode_ok U ->
  (year_ranges_of (annotate U text) = [] ->
     (years_of (annotate U text) = [] ->
        _get_experience_years U current_year text = Return 0) /\
     (length (distinct_years U text) = 1%nat ->
        _get_experience_years U current_year text = Return 1) /\
     ((1 < length (distinct_years U text))%nat ->
        _get_experience_years U current_year text =
        Return (max_of (distinct_year_values U text) -
                min_of (distinct_year_values U text)))) /\
  (year_ranges_of (annotate U text) <> [] ->
     _get_experience_years U current_year text =
     max_duration ←
       longest_range current_year (year_ranges_of (annotate U text)) 0;
     Return (if 0 <? max_duration then max_duration else 1)).
Proof.
  intros HU. split.
  - intros Hnone. rewrite (fallback_value U text HU Hnone).
    split; [|split].
    + by intros ->.
    + intros Hone. destruct (years_of (annotate U text)) eqn:Hy.
      * unfold distinct_years in Hone. rewrite Hy in Hone. done.
      * by rewrite Hone.
    + intros Hmany. destruct (years_of (annotate U text)) eqn:Hy.
      * unfold distinct_years in Hmany. rewrite Hy in Hmany. cbn in Hmany.
        rewrite elements_empty in Hmany. cbn in Hmany. lia.
      * by apply Nat.ltb_lt in Hmany as ->.
  - intros Hsome. unfold _get_experience_years, experience_years.
    by destruct (year_ranges_of (annotate U text)).
Qed.

Lemma standalone_years_fallback_witness :
  _get_experience_years basic_tables 2026 (u "2019, 2023 and 2021") =
  Return (max_of (distinct_year_values basic_tables (u "2019, 2023 and 2021")) -
          min_of (distinct_year_values basic_tables (u "2019, 2023 and 2021"))).
Proof.
  apply (proj1 (standalone_years_fallback basic_tables 2026
                  (u "2019, 2023 and 2021") unicode_ok_basic)).
  - vm_compute. reflexivity.
  - vm_compute. lia.
Defined.

Example fallback_2020_2021 U current_year :
  unicode_ok U ->
  _get_experience_years U current_year (u "courses in 2020 and 2021") = Return 1.
Proof. intros HU. on_basic HU. reflexivity. Qed.

Example fallback_no_years U current_year :
  unicode_ok U ->
  _get_experience_years U current_year (u "no dates in this text") = Return 0.
Proof. intros HU. on_basic HU. reflexivity. Qed.

Example fallback_unused_after_a_range U current_year :
  unicode_ok U ->
  _get_experience_years U current_year (u "2021-2022, graduated 2009, born 2001")
  = Return 1.
Proof. intros HU. on_basic HU. reflexivity. Qed.

(** *** Where the fallback departs from the ranges and years of a text *)

Lemma unicode_ok_fullwidth : unicode_ok fullwidth_tables.
Proof.
  intros c Hc. unfold classify, fullwidth_tables. cbn [isalnum isspace decimal
    tolower lower_full cased case_ignorable].
  assert (fullwidth_digit c = false) as ->.
  { unfold fullwidth_digit. apply andb_false_iff. left. apply N.leb_gt.
    unfold basic in Hc.
    repeat (apply orb_prop in Hc as [Hc|Hc]);
      first [apply N.ltb_lt in Hc | apply N.eqb_eq in Hc]; lia. }
  by rewrite orb_false_r.
Qed.

(** The text "2019 20XY" where X and Y are alphanumeric decimal digits 1 and
    9 other than "1" and "9": no range, and two tokens. *)
Lemma two_spellings_tokens (c1 c9 : N) (s1 s9 : bool) (l1 l9 : N)
      (f1 f9 : list N) (a1 a9 b1 b9 : bool) :
  let x := UChar c1 true s1 (Some 1) l1 f1 a1 b1 in
  let y := UChar c9 true s9 (Some 9) l9 f9 a9 b9 in
  let text := annotate basic_tables (u "2019 20") ++ [x; y] in
  year_ranges_of text = [] /\
  years_of text =
    [annotate basic_tables (u "2019"); annotate basic_tables (u "20") ++ [x; y]] /\
  year_value (annotate basic_tables (u "2019")) = 2019 /\
  year_value (annotate basic_tables (u "20") ++ [x; y]) = 2019.
Proof. by vm_compute. Qed.

Lemma two_spellings_estimate U current_year :
  unicode_ok U ->
  isalnum U 65297 = true -> decimal U 65297 = Some 1 ->
  isalnum U 65305 = true -> decimal U 65305 = Some 9 ->
  _get_experience_years U current_year (u "2019 20" ++ [65297; 65305]%N) =
  Return 0.
Proof.
  intros HU Ha1 Hd1 Ha9 Hd9.
  assert (annotate U (u "2019 20" ++ [65297; 65305]%N) =
          annotate basic_tables (u "2019 20") ++
          [UChar 65297 true (isspace U 65297) (Some 1) (tolower U 65297)
                 (lower_full U 65297) (cased U 65297) (case_ignorable U 65297);
           UChar 65305 true (isspace U 65305) (Some 9) (tolower U 65305)
                 (lower_full U 65305) (cased U 65305) (case_ignorable U 65305)])
    as Hann.
  { unfold annotate. rewrite fmap_app.
    change (classify U <$> u "2019 20") with (annotate U (u "2019 20")).
    rewrite (annotate_basic U _ HU) by reflexivity.
    cbn [fmap list_fmap]. unfold classify. by rewrite Ha1, Hd1, Ha9, Hd9. }
  destruct (two_spellings_tokens 65297 65305
              (isspace U 65297) (isspace U 65305)
              (tolower U 65297) (tolower U 65305)
              (lower_full U 65297) (lower_full U 65305)
              (cased U 65297) (cased U 65305)
              (case_ignorable U 65297) (case_ignorable U 65305))
    as (Hnone & Hyears & Hv1 & Hv2).
  cbv zeta in Hnone, Hyears, Hv2. rewrite <- Hann in Hnone, Hyears.
  rewrite (fallback_value U _ HU Hnone current_year). rewrite Hyears.
  set (t1 := annotate basic_tables (u "2019")) in *.
  set (t2 := annotate basic_tables (u "20") ++ _) in *.
  assert (t1 <> t2) as Hdiff.
  { intros Heq. apply (f_equal (fun t => cp <$> drop 2 t)) in Heq.
    vm_compute in Heq. discriminate Heq. }
  assert (distinct_years U (u "2019 20" ++ [65297; 65305]%N) ≡ₚ [t1; t2])
    as Hperm.
  { unfold distinct_years. rewrite Hyears. apply elements_list_to_set.
    apply NoDup_cons. split.
    - by intros ->%list_elem_of_singleton.
    - apply NoDup_singleton. }
  assert (forall v, v ∈ distinct_year_values U (u "2019 20" ++ [65297; 65305]%N)
                    -> v = 2019) as Hall.
  { intros v. unfold distinct_year_values. rewrite Hperm.
    intros [->|[->|Hv]%elem_of_cons]%elem_of_cons; [done|done|].
    by apply elem_of_nil in Hv. }
  assert (distinct_year_values U (u "2019 20" ++ [65297; 65305]%N) <> [])
    as Hne.
  { unfold distinct_year_values. intros Hnil%fmap_nil_inv.
    rewrite Hnil in Hperm. by apply Permutation_nil_l in Hperm. }
  rewrite (Hall _ (proj1 (max_of_spec _ Hne))),
          (Hall _ (proj1 (min_of_spec _ Hne))).
  by rewrite Hperm.
Qed.

(** C6.  The fallback on standalone years does take the place of a range,
    and one year can count as two.  In "born 2010; acme 2018 to 2020" the
    range "2018 to 2020" is not matched (the separator is one character),
    so the estimate is the span 10 of the standalone years where the range
    gives 2, which is what the same text gives with a hyphen for "to".  In
    "2019 20XY" with XY the fullwidth digits 1 and 9, one year is written
    twice; the two tokens differ, are both converted, and the estimate is
    2019 - 2019 = 0 where one distinct year gives 1. *)
Theorem fallback_replaces_to_range U current_year :
  unicode_ok U ->
  _get_experience_years U current_year (u "born 2010; acme 2018 to 2020")
    = Return 10 /\
  _get_experience_years U current_year (u "born 2010; acme 2018 - 2020")
    = Return 2 /\
  (isalnum U 65297 = true -> decimal U 65297 = Some 1 ->
   isalnum U 65305 = true -> decimal U 65305 = Some 9 ->
   _get_experience_years U current_year (u "2019 20" ++ [65297; 65305]%N)
     = Return 0).
Proof.
  intros HU. split; [|split].
  - on_basic HU. reflexivity.
  - on_basic HU. reflexivity.
  - by apply two_spellings_estimate.
Qed.

Lemma fallback_replaces_to_range_witness :
  _get_experience_years fullwidth_tables 2026 (u "born 2010; acme 2018 to 2020")
    = Return 10 /\
  _get_experience_years fullwidth_tables 2026 (u "born 2010; acme 2018 - 2020")
    = Return 2 /\
  _get_experience_years fullwidth_tables 2026 (u "2019 20" ++ [65297; 65305]%N)
    = Return 0.
Proof.
  destruct (fallback_replaces_to_range fullwidth_tables 2026
              unicode_ok_fullwidth) as (Hto & Hdash & Htwice).
  split; [exact Hto|]. split; [exact Hdash|].
  apply Htwice; reflexivity.
Defined.

(** *** The loop over the matches of the range pattern *)

Lemma longest_range_fold current_year year_ranges ds :
  mapM (duration_of current_year) year_ranges = Return ds ->
  forall max_duration,
    longest_range current_year year_ranges max_duration =
    Return (foldl Z.max max_duration ds).
Proof.
  revert ds. induction year_ranges as [|[[[s1 s2] e1] e2] more IH];
    intros ds Hds acc; cbn in *.
  - by injection Hds as <-.
  - destruct (int s1) as [start_year|]; [|done]. cbn in *.
    destruct (end_year_of current_year e1) as [end_year|]; [|done]. cbn in *.
    destruct (mapM _ more) as [ds'|]; [|done]. cbn in Hds.
    injection Hds as <-. rewrite (IH ds' eq_refl). cbn. do 2 f_equal.
    destruct (Z.ltb_spec acc (end_year - start_year)); lia.
Qed.

Lemma foldl_max_of acc ds :
  ds <> [] -> foldl Z.max acc ds = Z.max acc (max_of ds).
Proof.
  intros Hne. destruct (max_of_spec ds Hne) as [Hin Hall].
  revert Hin Hall. generalize (max_of ds) as m. clear Hne.
  revert acc. induction ds as [|d ds IH]; intros acc m Hin Hall.
  - by apply elem_of_nil in Hin.
  - cbn. destruct ds as [|d' ds].
    + apply list_elem_of_singleton in Hin as ->. reflexivity.
    + apply elem_of_cons in Hin as [->|Hin].
      * assert (foldl Z.max (Z.max acc d) (d' :: ds) = Z.max acc d) as ->; [|done].
        assert (forall l a, (forall x, x ∈ l -> x <= a) -> foldl Z.max a l = a) as Hfix.
        { clear. induction l as [|x l IH]; intros a H; [done|]. cbn.
          rewrite Z.max_l by (apply H, list_elem_of_here). apply IH.
          intros y Hy. apply H. by apply list_elem_of_further. }
        apply Hfix. intros x Hx.
        assert (x <= d) by (apply Hall; by apply list_elem_of_further). lia.
      * rewrite (IH _ m Hin)
          by (intros x Hx; apply Hall; by apply list_elem_of_further).
        assert (d <= m) by (apply Hall, list_elem_of_here). lia.
Qed.

(** The positive part of C5: when the range pattern matches and the years of
    every match can be read, the estimate is the largest [end_year -
    start_year] over the matches, and 1 when that is not positive. *)
Lemma range_estimate_is_longest_duration U current_year text ds :
  year_ranges_of (annotate U text) <> [] ->
  mapM (duration_of current_year) (year_ranges_of (annotate U text)) = Return ds ->
  _get_experience_years U current_year text =
  Return (if 0 <? max_of ds then max_of ds else 1).
Proof.
  intros Hsome Hds.
  unfold _get_experience_years, experience_years.
  destruct (year_ranges_of (annotate U text)) as [|g gs] eqn:Hr; [done|].
  rewrite (longest_range_fold _ _ _ Hds). cbn.
  assert (ds <> []) as Hne.
  { intros ->. cbn in Hds. destruct (duration_of current_year g); [|done].
    cbn in Hds. by destruct (mapM _ gs). }
  rewrite (foldl_max_of 0 ds Hne). f_equal.
  destruct (Z.ltb_spec 0 (max_of ds)), (Z.ltb_spec 0 (Z.max 0 (max_of ds))); lia.
Qed.

Lemma range_estimate_is_longest_duration_witness :
  _get_experience_years basic_tables 2026
    (u "acme 2021 - present; initech (2015-2019); 2019 - 2018") = Return 5.
Proof.
  apply (range_estimate_is_longest_duration basic_tables 2026 _ [5; 4; -1]).
  - vm_compute. discriminate.
  - vm_compute. reflexivity.
Defined.

(** ** The analysis as a whole *)

Lemma extract_run U filepath w :
  exists w1,
    _extract_text_from_pdf U filepath w =
      (Return (extracted_text U (files w filepath)), w1) /\
    files w1 = files w /\ year_now w1 = year_now w /\
    opened w1 = opened w ++ [filepath].
Proof.
  unfold _extract_text_from_pdf, mbind, io_bind, fitz_open. cbn.
  destruct (files w filepath) as [texts|e]; cbn; eauto.
Qed.

(** What a run of [parse_and_score_resume] returns for a role of the
    catalog, by the text extracted and its experience estimate. *)
Lemma parse_run U filepath role_name role_reqs w :
  JOB_ROLES !! role_name = Some role_reqs ->
  fst (parse_and_score_resume U filepath role_name w) =
  match extracted_text U (files w filepath) with
  | [] => Return (ErrorDict (u "Could not read text from the resume file."))
  | text =>
      match _get_experience_years U (year_now w) text with
      | Raise e => Raise e
      | Return extracted_experience =>
          match mandatory_keywords role_reqs with
          | [] => Raise ZeroDivisionError
          | _ => Return (Scored (scores_for U role_reqs text extracted_experience))
          end
      end
  end.
Proof.
  intros Hrole. unfold parse_and_score_resume. rewrite Hrole.
  destruct (extract_run U filepath w) as (w1 & Hrun & _ & Hyear & _).
  unfold mbind at 1. unfold io_bind at 1. rewrite Hrun.
  destruct (extracted_text U (files w filepath)) as [|c text]; [reflexivity|].
  unfold mbind, io_bind, datetime_now_year, lift. rewrite Hyear.
  destruct (_get_experience_years U (year_now w) (c :: text)) as [years|e];
    [|reflexivity].
  unfold mandatory_scan.
  destruct (mandatory_keywords role_reqs) as [|k ks] eqn:Hk; [reflexivity|].
  unfold scores_for, total_score_of, keyword_score, mandatory_scan.
  rewrite Hk. destruct (experience_range role_reqs) as [exp_min exp_max].
  cbn [fst snd]. destruct (recommend _ _ _ _). reflexivity.
Qed.

(** C8.  A role name that is not a key of the catalog makes the analysis
    raise ValueError, whatever the file holds; nothing is returned, no
    dictionary of scores and no error dictionary either. *)
Theorem unknown_role_raises U filepath role_name w :
  JOB_ROLES !! role_name = None ->
  parse_and_score_resume U filepath role_name w =
  (Raise (ValueError (u "Invalid role '" ++ role_name ++ u "'.")), w).
Proof. intros Hrole. unfold parse_and_score_resume. by rewrite Hrole. Qed.

Lemma unknown_role_raises_witness :
  parse_and_score_resume basic_tables (u "cv.pdf") (u "Nonexistent Role")
    broken_world =
  (Raise (ValueError (u "Invalid role 'Nonexistent Role'.")), broken_world).
Proof.
  apply (unknown_role_raises basic_tables (u "cv.pdf") (u "Nonexistent Role")
           broken_world).
  vm_compute. reflexivity.
Defined.

(** C10.  The role name is checked before the file is touched: for an
    unknown role the run ends in ValueError with no file opened and nothing
    printed, although extraction, when it runs, always opens the file.  So
    the error of the role wins over an unreadable or empty document. *)
Theorem role_check_precedes_extraction U filepath role_name w :
  JOB_ROLES !! role_name = None ->
  (exists msg,
     fst (parse_and_score_resume U filepath role_name w) = Raise (ValueError msg)) /\
  opened (snd (parse_and_score_resume U filepath role_name w)) = opened w /\
  stdout (snd (parse_and_score_resume U filepath role_name w)) = stdout w /\
  opened (snd (_extract_text_from_pdf U filepath w)) = opened w ++ [filepath].
Proof.
  intros Hrole. unfold parse_and_score_resume. rewrite Hrole. cbn.
  split; [eauto|]. split; [done|]. split; [done|].
  destruct (extract_run U filepath w) as (w1 & Hrun & _ & _ & Hopened).
  by rewrite Hrun.
Qed.

Lemma role_check_precedes_extraction_witness :
  opened (snd (parse_and_score_resume basic_tables (u "broken.pdf")
                 (u "Astronaut") broken_world)) = [].
Proof.
  apply (role_check_precedes_extraction basic_tables (u "broken.pdf")
           (u "Astronaut") broken_world).
  vm_compute. reflexivity.
Defined.

(** C3, as the code has it.  A document that cannot be decoded and a
    document without text are not told apart: extraction catches the
    exception, prints a line and returns the empty string, and in both cases
    the analysis returns the dictionary that holds only an error message.
    No exception reaches the caller. *)
Theorem unreadable_and_empty_documents_alike U filepath role_name role_reqs w :
  JOB_ROLES !! role_name = Some role_reqs ->
  match files w filepath with
  | Unreadable _ => True
  | Pages texts => concat texts = []
  end ->
  fst (parse_and_score_resume U filepath role_name w) =
  Return (ErrorDict (u "Could not read text from the resume file.")).
Proof.
  intros Hrole Hdoc. rewrite (parse_run U filepath role_name role_reqs w Hrole).
  destruct (files w filepath) as [texts|e]; [|reflexivity].
  cbn. by rewrite Hdoc.
Qed.

Lemma unreadable_and_empty_documents_alike_witness :
  fst (parse_and_score_resume basic_tables (u "blank.pdf") (u "Data Analyst")
         (one_file_world (u "blank.pdf") [] 2026)) =
  Return (ErrorDict (u "Could not read text from the resume file.")).
Proof.
  eapply (unreadable_and_empty_documents_alike basic_tables (u "blank.pdf")
            (u "Data Analyst")).
  - vm_compute. reflexivity.
  - vm_compute. reflexivity.
Defined.

(** C3 as stated fails: a document that cannot be decoded does not make the
    analysis fail; the error dictionary is returned. *)
Lemma unreadable_document_is_not_fatal :
  fst (parse_and_score_resume basic_tables (u "broken.pdf") (u "Data Analyst")
         broken_world) =
  Return (ErrorDict (u "Could not read text from the resume file.")).
Proof. vm_compute. reflexivity. Qed.

(** *** Recommendation *)

Lemma recommend_gated years exp_min exp_max total :
  (exp_max < years ->
     fst (recommend years exp_min exp_max total) =
     u "Potential Fit (Overqualified)") /\
  (years <= exp_max -> years < exp_min ->
     fst (recommend years exp_min exp_max total) =
     u "Not a Fit (Underqualified)") /\
  (exp_min <= years <= exp_max ->
     fst (recommend years exp_min exp_max total) =
     if (80 <=? total)%float then u "Strong Fit"
     else if (60 <=? total)%float then u "Good Fit"
     else u "Near-Fit Candidate (Offer Learning Path)").
Proof.
  unfold recommend.
  destruct (Z.ltb_spec exp_max years), (Z.ltb_spec years exp_min);
    repeat split; intros; try lia; try reflexivity.
  destruct (80 <=? total)%float; [reflexivity|].
  destruct (60 <=? total)%float; reflexivity.
Qed.

Ltac catalog_cases H :=
  unfold JOB_ROLES in H; apply elem_of_list_to_map_2 in H;
  repeat (apply elem_of_cons in H as [H|H]);
  [..|by apply elem_of_nil in H]; injection H as -> ->.

Lemma catalog_roles_have_keywords role_name role_reqs :
  JOB_ROLES !! role_name = Some role_reqs -> mandatory_keywords role_reqs <> [].
Proof. intros H. catalog_cases H; discriminate. Qed.

(** C4.  Whenever the analysis of a role of the catalog gets as far as the
    scores (some text was extracted and its experience estimate returned),
    the recommendation is decided by experience first: above the maximum it
    is the overqualified one, else below the minimum the underqualified one,
    whatever the total score; only inside the range does the total score
    choose between strong (80 and more), good (60 and more) and near fit. *)
Theorem experience_gates_recommendation U filepath role_name role_reqs w years :
  JOB_ROLES !! role_name = Some role_reqs ->
  extracted_text U (files w filepath) <> [] ->
  _get_experience_years U (year_now w) (extracted_text U (files w filepath))
    = Return years ->
  exists s,
    fst (parse_and_score_resume U filepath role_name w) = Return (Scored s) /\
    (snd (experience_range role_reqs) < years ->
       Recommendation s = u "Potential Fit (Overqualified)") /\
    (years <= snd (experience_range role_reqs) ->
     years < fst (experience_range role_reqs) ->
       Recommendation s = u "Not a Fit (Underqualified)") /\
    (fst (experience_range role_reqs) <= years <= snd (experience_range role_reqs) ->
       Recommendation s =
       if (80 <=? Total_Score_Bias_Free s)%float then u "Strong Fit"
       else if (60 <=? Total_Score_Bias_Free s)%float then u "Good Fit"
       else u "Near-Fit Candidate (Offer Learning Path)").
Proof.
  intros Hrole Htext Hyears.
  pose proof (catalog_roles_have_keywords _ _ Hrole) as Hk.
  rewrite (parse_run U filepath role_name role_reqs w Hrole).
  destruct (extracted_text U (files w filepath)) as [|c text] eqn:Et; [done|].
  cbv beta iota zeta. rewrite Hyears.
  destruct (mandatory_keywords role_reqs) as [|k ks] eqn:Ek; [done|].
  eexists. split; [reflexivity|]. cbn [Recommendation Total_Score_Bias_Free scores_for].
  apply recommend_gated.
Qed.

Lemma experience_gates_recommendation_witness :
  exists s,
    fst (parse_and_score_resume basic_tables (u "cv.pdf") (u "DevOps Engineer")
           (one_file_world (u "cv.pdf")
              (u "AWS, Docker, Kubernetes, CI/CD, Terraform. DevOps since 2025 - present")
              2026)) = Return (Scored s) /\
    Recommendation s = u "Not a Fit (Underqualified)".
Proof.
  destruct (experience_gates_recommendation basic_tables (u "cv.pdf")
              (u "DevOps Engineer")
              (Role (2, 7)
                 [u "aws"; u "docker"; u "kubernetes"; u "ci/cd"; u "terraform"]
                 [u "devops"; u "infrastructure"; u "automation"; u "cloud";
                  u "sysadmin"; u "jenkins"; u "ansible"])
              (one_file_world (u "cv.pdf")
                 (u "AWS, Docker, Kubernetes, CI/CD, Terraform. DevOps since 2025 - present")
                 2026)
              1)
    as (s & Hs & _ & Hunder & _).
  - vm_compute. reflexivity.
  - vm_compute. discriminate.
  - vm_compute. reflexivity.
  - exists s. split; [exact Hs|]. apply Hunder; cbn; lia.
Defined.

(** *** The keyword score *)

Lemma filter_all {A} (P : A -> Prop) `{!forall x, Decision (P x)} (l : list A) :
  (forall x, x ∈ l -> P x) -> filter P l = l.
Proof.
  induction l as [|a l IH]; intros Hall; [reflexivity|].
  rewrite filter_cons_True by (apply Hall, list_elem_of_here).
  f_equal. apply IH. intros x Hx. apply Hall. by apply list_elem_of_further.
Qed.

Lemma filter_none {A} (P : A -> Prop) `{!forall x, Decision (P x)} (l : list A) :
  (forall x, x ∈ l -> ~ P x) -> filter P l = [].
Proof.
  induction l as [|a l IH]; intros Hall; [reflexivity|].
  rewrite filter_cons_False by (apply Hall, list_elem_of_here).
  apply IH. intros x Hx. apply Hall. by apply list_elem_of_further.
Qed.

(** Every mandatory keyword of every role is a catalog skill whose two ends
    are word characters, and a role whose keywords are all found scores
    100. *)
Lemma catalog_keywords_detectable role_name role_reqs :
  JOB_ROLES !! role_name = Some role_reqs ->
  Forall (fun k => k ∈ SKILLS_DB /\ k <> u "c++")
         (mandatory_keywords role_reqs) /\
  (float_of_count (length (mandatory_keywords role_reqs)) /
   float_of_count (length (mandatory_keywords role_reqs)) * 100)%float
  = 100%float.
Proof.
  intros H. catalog_cases H;
    (split; [apply (bool_decide_unpack _); vm_compute; exact I
            |vm_compute; reflexivity]).
Qed.

Lemma word_edged_nonempty k : word_edged k = true -> k <> [].
Proof. by intros H ->. Qed.

(** The positive part of C7: for a role of the catalog and a text that holds
    each mandatory keyword as a whole word, an analysis whose experience
    estimate returns has a keyword score of 100 and no skill gap. *)
Lemma keyword_score_is_full U filepath role_name role_reqs w years :
  unicode_ok U ->
  JOB_ROLES !! role_name = Some role_reqs ->
  (forall k, k ∈ mandatory_keywords role_reqs ->
             whole_word_in U k (extracted_text U (files w filepath))) ->
  _get_experience_years U (year_now w) (extracted_text U (files w filepath))
    = Return years ->
  exists s,
    fst (parse_and_score_resume U filepath role_name w) = Return (Scored s) /\
    F_keyword_scaled s = 100%float /\ Skill_Gaps s = [].
Proof.
  intros HU Hrole Hwords Hyears.
  destruct (catalog_keywords_detectable _ _ Hrole) as [Hcat Hfull].
  pose proof (catalog_roles_have_keywords _ _ Hrole) as Hk.
  rewrite Forall_forall in Hcat.
  assert (forall k, k ∈ mandatory_keywords role_reqs ->
            k ∈ _find_skills U (extracted_text U (files w filepath))) as Hfound.
  { intros k Hin. destruct (Hcat k Hin) as [Hdb Hne].
    apply (word_edged_detected U k _ HU (catalog_word_edged k Hdb Hne)).
    split; [done|]. by apply Hwords. }
  rewrite (parse_run U filepath role_name role_reqs w Hrole).
  destruct (extracted_text U (files w filepath)) as [|c text] eqn:Et.
  { destruct (mandatory_keywords role_reqs) as [|k ks]; [done|].
    exfalso. eapply not_elem_of_nil. apply (Hfound k), list_elem_of_here. }
  cbv beta iota zeta. rewrite Hyears.
  destruct (mandatory_keywords role_reqs) as [|k ks] eqn:Ek; [done|].
  eexists. split; [reflexivity|].
  cbn [F_keyword_scaled Skill_Gaps scores_for].
  unfold keyword_score, mandatory_scan. rewrite Ek. cbn [fst snd].
  rewrite (filter_all _ (k :: ks) Hfound).
  rewrite filter_none by (intros x Hx Hnot; by apply Hnot, Hfound).
  by split.
Qed.

Lemma keyword_score_is_full_witness :
  exists s,
    fst (parse_and_score_resume basic_tables (u "cv.pdf") (u "Junior Developer")
           (one_file_world (u "cv.pdf")
              (u "Python, Git and SQL; 2021 - present") 2026))
      = Return (Scored s) /\
    F_keyword_scaled s = 100%float /\ Skill_Gaps s = [].
Proof.
  apply (keyword_score_is_full basic_tables (u "cv.pdf") (u "Junior Developer")
           (Role (0, 3) [u "python"; u "git"; u "sql"]
                 [u "developer"; u "software"; u "engineer"; u "code";
                  u "programming"; u "flask"; u "django"; u "api"])
           (one_file_world (u "cv.pdf")
              (u "Python, Git and SQL; 2021 - present") 2026)
           5 unicode_ok_basic).
  - vm_compute. reflexivity.
  - intros k Hk.
    assert (k ∈ SKILLS_DB /\ k <> u "c++" /\
            k ∈ _find_skills basic_tables (u "python, git and sql; 2021 - present"))
      as (Hdb & Hne & Hin).
    { repeat (apply elem_of_cons in Hk as [->|Hk]);
        [..|by apply elem_of_nil in Hk];
        (split; [|split]);
        first [ discriminate
              | apply (bool_decide_unpack _); vm_compute; exact I ]. }
    apply (word_edged_detected basic_tables k _ unicode_ok_basic
             (catalog_word_edged k Hdb Hne)) in Hin as [_ Hin].
    exact Hin.
  - vm_compute. reflexivity.
Defined.

(** C7, where the code fails.  The text holds every mandatory keyword of
    "Junior Developer" as a whole word, but its date range ends in "present"
    spelt with a long s: the experience estimate raises ValueError and the
    analysis returns no keyword score. *)
Theorem keyword_score_lost_to_long_s U filepath w :
  unicode_ok U ->
  files w filepath =
    Pages [u "Python, Git, SQL. Developer, 2018 - " ++ long_s_present] ->
  (forall k, k ∈ [u "python"; u "git"; u "sql"] ->
             whole_word_in U k (extracted_text U (files w filepath))) /\
  fst (parse_and_score_resume U filepath (u "Junior Developer") w) =
  Raise (ValueError (u "invalid literal for int() with base 10: '" ++
                       long_s_present ++ u "'")).
Proof.
  intros HU Hfile.
  assert (extracted_text U (files w filepath) =
          u "python, git, sql. developer, 2018 - " ++ long_s_present) as Ht.
  { rewrite Hfile. unfold extracted_text.
    rewrite (annotate_basic _ _ HU) by (vm_compute; reflexivity).
    vm_compute. reflexivity. }
  split.
  - intros k Hk. rewrite Ht.
    assert (k ∈ SKILLS_DB /\ k <> u "c++" /\
            k ∈ _find_skills U (u "python, git, sql. developer, 2018 - " ++
                                long_s_present))
      as (Hdb & Hne & Hin).
    { rewrite (find_skills_on_basic U _ HU) by (vm_compute; reflexivity).
      repeat (apply elem_of_cons in Hk as [->|Hk]);
        [..|by apply elem_of_nil in Hk];
        (split; [|split]);
        first [ discriminate
              | apply (bool_decide_unpack _); vm_compute; exact I ]. }
    by apply (word_edged_detected U k _ HU (catalog_word_edged k Hdb Hne))
      in Hin as [_ Hin].
  - assert (JOB_ROLES !! u "Junior Developer" =
            Some (Role (0, 3) [u "python"; u "git"; u "sql"]
                    [u "developer"; u "software"; u "engineer"; u "code";
                     u "programming"; u "flask"; u "django"; u "api"]))
      as Hrole by (vm_compute; reflexivity).
    rewrite (parse_run U filepath _ _ w Hrole).
    destruct (extracted_text U (files w filepath)) as [|c text];
      [discriminate|].
    cbv beta iota zeta. rewrite Ht. unfold _get_experience_years.
    rewrite (annotate_basic _ _ HU) by (vm_compute; reflexivity).
    vm_compute. reflexivity.
Qed.

Lemma keyword_score_lost_to_long_s_witness :
  fst (parse_and_score_resume basic_tables (u "cv.pdf") (u "Junior Developer")
         (one_file_world (u "cv.pdf")
            (u "Python, Git, SQL. Developer, 2018 - " ++ long_s_present) 2026)) =
  Raise (ValueError (u "invalid literal for int() with base 10: '" ++
                       long_s_present ++ u "'")).
Proof.
  apply (keyword_score_lost_to_long_s basic_tables (u "cv.pdf")
           (one_file_world (u "cv.pdf")
              (u "Python, Git, SQL. Developer, 2018 - " ++ long_s_present) 2026)
           unicode_ok_basic).
  vm_compute. reflexivity.
Defined.

(** * Further properties of the code *)

(** ** The order of [sorted] on strings *)

Lemma str_leb_refl a : str_leb a a = true.
Proof.
  induction a as [|x a IH]; [reflexivity|]. cbn.
  by rewrite N.eqb_refl, IH, orb_true_r.
Qed.

Lemma str_leb_total a b : str_leb a b = true \/ str_leb b a = true.
Proof.
  revert b. induction a as [|x a IH]; intros [|y b]; cbn; auto.
  destruct (N.ltb_spec x y); [by left|].
  destruct (N.ltb_spec y x); [by right|].
  assert (x = y) as -> by lia. rewrite N.eqb_refl. cbn. apply IH.
Qed.

Lemma str_leb_trans a b c :
  str_leb a b = true -> str_leb b c = true -> str_leb a c = true.
Proof.
  revert b c. induction a as [|x a IH]; intros [|y b] [|z c]; cbn; try done.
  intros [H1|[H1 H1']%andb_prop]%orb_prop [H2|[H2 H2']%andb_prop]%orb_prop.
  - apply N.ltb_lt in H1, H2.
    apply orb_true_iff. left. apply N.ltb_lt. lia.
  - apply N.ltb_lt in H1. apply N.eqb_eq in H2. subst.
    apply orb_true_iff. left. by apply N.ltb_lt.
  - apply N.ltb_lt in H2. apply N.eqb_eq in H1. subst.
    apply orb_true_iff. left. by apply N.ltb_lt.
  - apply N.eqb_eq in H1, H2. subst. rewrite N.eqb_refl, (IH b c H1' H2').
    apply orb_true_r.
Qed.

Lemma str_leb_antisym a b :
  str_leb a b = true -> str_leb b a = true -> a = b.
Proof.
  revert b. induction a as [|x a IH]; intros [|y b]; cbn; try done.
  intros [H1|[H1 H1']%andb_prop]%orb_prop [H2|[H2 H2']%andb_prop]%orb_prop.
  - apply N.ltb_lt in H1, H2. lia.
  - apply N.ltb_lt in H1. apply N.eqb_eq in H2. lia.
  - apply N.ltb_lt in H2. apply N.eqb_eq in H1. lia.
  - apply N.eqb_eq in H1. subst. f_equal. by apply IH.
Qed.

#[local] Instance str_le_total : Total str_le.
Proof. intros a b. apply str_leb_total. Qed.

#[local] Instance str_le_trans : Transitive str_le.
Proof. intros a b c. apply str_leb_trans. Qed.

Lemma sorted_nodup_strict (l : list pystr) :
  StronglySorted str_le l -> NoDup l -> StronglySorted str_lt l.
Proof.
  induction 1 as [|a l Hs IH Hall]; intros Hnd; [constructor|].
  apply NoDup_cons in Hnd as [Hnotin Hnd].
  constructor; [by apply IH|].
  rewrite Forall_forall in Hall |- *. intros b Hb. split.
  - by apply Hall.
  - intros ->. done.
Qed.

(** X3.  The list of skills that [_find_skills] returns is strictly
    ascending in the order of code points (sorted, no entry twice) and holds
    catalog entries only. *)
Theorem find_skills_sorted_catalog_entries U text :
  StronglySorted str_lt (_find_skills U text) /\
  NoDup (_find_skills U text) /\
  (forall s, s ∈ _find_skills U text -> s ∈ SKILLS_DB).
Proof.
  assert (NoDup (_find_skills U text)) as Hnd.
  { unfold _find_skills, find_skills, sorted_str.
    rewrite merge_sort_Permutation. apply NoDup_elements. }
  split; [|split; [done|]].
  - apply sorted_nodup_strict; [|done].
    unfold _find_skills, find_skills, sorted_str.
    apply (StronglySorted_merge_sort str_le).
  - intros s Hs. unfold _find_skills in Hs. by apply find_skills_elem in Hs as [? _].
Qed.

(** ** Bounds of the experience estimate *)

Lemma longest_range_lower current_year year_ranges max_duration n :
  longest_range current_year year_ranges max_duration = Return n ->
  max_duration <= n.
Proof.
  revert max_duration.
  induction year_ranges as [|[[[s1 s2] e1] e2] more IH]; intros acc; cbn.
  - intros [= ->]. lia.
  - destruct (int s1) as [start_year|]; [|done]. cbn.
    destruct (end_year_of current_year e1) as [end_year|]; [|done]. cbn.
    intros H%IH. destruct (Z.ltb_spec acc (end_year - start_year)); lia.
Qed.

(** X4.  An experience estimate that is returned is never negative; it is at
    least 1 when the range pattern matched; and it is 0 when the text holds
    no "20xx" token at all. *)
Theorem experience_estimate_bounds U current_year text n :
  _get_experience_years U current_year text = Return n ->
  0 <= n /\
  (year_ranges_of (annotate U text) <> [] -> 1 <= n) /\
  (year_ranges_of (annotate U text) = [] ->
   years_of (annotate U text) = [] -> n = 0).
Proof.
  unfold _get_experience_years, experience_years.
  destruct (year_ranges_of (annotate U text)) as [|g gs] eqn:Hr.
  - destruct (years_of (annotate U text)) as [|y ys] eqn:Hy.
    + intros [= <-]. repeat split; try done.
    + destruct (mapM int _) as [ints|] eqn:Hm; [|done].
      unfold mbind, result_bind.
      intros [= <-]. split; [|split; done].
      destruct (Nat.ltb_spec 1 (length (sorted_int ints))) as [Hlen|]; [|lia].
      rewrite sorted_int_length in Hlen.
      assert (ints <> []) as Hne by (intros ->; cbn in Hlen; lia).
      destruct (sorted_int_ends ints Hne) as [-> ->]. cbn.
      destruct (max_of_spec ints Hne) as [_ Hmax].
      destruct (min_of_spec ints Hne) as [Hmin _].
      specialize (Hmax _ Hmin). lia.
  - destruct (longest_range _ _ _) as [m|] eqn:Hl; [|done]. cbn.
    intros [= <-]. apply longest_range_lower in Hl.
    destruct (Z.ltb_spec 0 m); repeat split; intros; try done; lia.
Qed.

Lemma experience_estimate_bounds_witness :
  0 <= 5 /\
  (year_ranges_of (annotate basic_tables (u "2019-2024")) <> [] -> 1 <= 5) /\
  (year_ranges_of (annotate basic_tables (u "2019-2024")) = [] ->
   years_of (annotate basic_tables (u "2019-2024")) = [] -> 5 = 0).
Proof.
  apply (experience_estimate_bounds basic_tables 2026 (u "2019-2024") 5).
  vm_compute. reflexivity.
Defined.

(** ** Two years joined by the word "to", a hyphen or a lone "t" *)

Lemma classify_digit U a :
  unicode_ok U -> (a < 10)%N -> classify U (48 + a) = digit_char a.
Proof.
  intros HU Ha. rewrite HU by (unfold basic; apply orb_true_iff; left;
    apply orb_true_iff; left; apply orb_true_iff; left; apply N.ltb_lt; lia).
  assert (a = 0 \/ a = 1 \/ a = 2 \/ a = 3 \/ a = 4 \/ a = 5 \/ a = 6 \/
          a = 7 \/ a = 8 \/ a = 9)%N as Hc by lia.
  repeat (destruct Hc as [->|Hc]); try subst a; reflexivity.
Qed.

(** The annotated text of two years around a separator. *)
Lemma annotate_joined U a b c d sep :
  unicode_ok U -> forallb basic sep = true ->
  (a < 10)%N -> (b < 10)%N -> (c < 10)%N -> (d < 10)%N ->
  annotate U (year_text a b ++ sep ++ year_text c d) =
  (annotate basic_tables (u "20") ++ [digit_char a; digit_char b]) ++
  annotate basic_tables sep ++
  (annotate basic_tables (u "20") ++ [digit_char c; digit_char d]).
Proof.
  intros HU Hsep Ha Hb Hc Hd. unfold annotate, year_text.
  rewrite !fmap_app. cbn [fmap list_fmap].
  rewrite !(classify_digit U) by done.
  change (classify U <$> sep) with (annotate U sep).
  rewrite (annotate_basic U sep HU Hsep).
  rewrite !(HU 50%N), !(HU 48%N) by reflexivity. reflexivity.
Qed.

Lemma max_min_of_pair (l : list Z) x y :
  l ≡ₚ [x; y] -> max_of l - min_of l = Z.abs (y - x).
Proof.
  intros Hp.
  assert (l <> []) as Hne by (intros ->; by apply Permutation_nil_l in Hp).
  destruct (max_of_spec l Hne) as [Hmax_in Hmax].
  destruct (min_of_spec l Hne) as [Hmin_in Hmin].
  assert (forall z, z ∈ l <-> z = x \/ z = y) as Hmem.
  { intros z. rewrite Hp, !elem_of_cons, elem_of_nil. tauto. }
  pose proof (Hmax x (proj2 (Hmem x) (or_introl eq_refl))).
  pose proof (Hmax y (proj2 (Hmem y) (or_intror eq_refl))).
  pose proof (Hmin x (proj2 (Hmem x) (or_introl eq_refl))).
  pose proof (Hmin y (proj2 (Hmem y) (or_intror eq_refl))).
  apply Hmem in Hmax_in, Hmin_in. lia.
Qed.

Lemma year_value_digits a b :
  year_value (annotate basic_tables (u "20") ++ [digit_char a; digit_char b])
  = year_number a b.
Proof.
  let v := eval vm_compute in (annotate basic_tables (u "20")) in
  change (annotate basic_tables (u "20")) with v.
  unfold year_value, year_number. cbn -[Z.mul Z.add Z.of_N]. lia.
Qed.

Lemma digit_cases (P : N -> Prop) :
  P 0%N -> P 1%N -> P 2%N -> P 3%N -> P 4%N -> P 5%N -> P 6%N -> P 7%N ->
  P 8%N -> P 9%N -> forall a, (a < 10)%N -> P a.
Proof.
  intros ? ? ? ? ? ? ? ? ? ? a Ha.
  assert (a = 0 \/ a = 1 \/ a = 2 \/ a = 3 \/ a = 4 \/ a = 5 \/ a = 6 \/
          a = 7 \/ a = 8 \/ a = 9)%N as Hc by lia.
  repeat (destruct Hc as [->|Hc]); try subst a; assumption.
Qed.

Ltac digit_case a Ha :=
  revert a Ha;
  match goal with
  | |- forall x, (x < 10)%N -> @?P x =>
      refine (digit_cases P _ _ _ _ _ _ _ _ _ _); cbv beta
  end.

Lemma year_token_not_present c d :
  (c < 10)%N -> (d < 10)%N ->
  bool_decide
    (str_lower (annotate basic_tables (u "20") ++ [digit_char c; digit_char d])
     ∈ [u "present"; u "current"]) = false.
Proof.
  intros Hc Hd. digit_case c Hc; digit_case d Hd; vm_compute; reflexivity.
Qed.

(** The loop over one range of two years. *)
Lemma single_range_value current_year a b c d :
  (a < 10)%N -> (b < 10)%N -> (c < 10)%N -> (d < 10)%N ->
  (max_duration ←
     longest_range current_year
       [(annotate basic_tables (u "20") ++ [digit_char a; digit_char b],
         annotate basic_tables (u "20") ++ [digit_char a; digit_char b],
         annotate basic_tables (u "20") ++ [digit_char c; digit_char d],
         annotate basic_tables (u "20") ++ [digit_char c; digit_char d])] 0;
   Return (if 0 <? max_duration then max_duration else 1)) =
  Return (if decide (year_number a b < year_number c d)
          then year_number c d - year_number a b else 1).
Proof.
  intros Ha Hb Hc Hd. cbn [longest_range].
  assert (forall x y,
            int (annotate basic_tables (u "20") ++ [digit_char x; digit_char y])
            = Return (year_number x y)) as Hint.
  { intros x y. rewrite <- year_value_digits.
    let v := eval vm_compute in (annotate basic_tables (u "20")) in
    change (annotate basic_tables (u "20")) with v.
    reflexivity. }
  unfold end_year_of. rewrite (year_token_not_present c d Hc Hd).
  rewrite !Hint. cbn [mbind result_bind].
  destruct (Z.ltb_spec 0 (year_number c d - year_number a b)).
  - rewrite decide_True by lia.
    destruct (Z.ltb_spec 0 (year_number c d - year_number a b)); [done|lia].
  - rewrite decide_False by lia. reflexivity.
Qed.

(** X5.  Between two years 20ab and 20cd the word "to" is no separator of
    the range pattern: "20ab to 20cd" is read by the fallback on standalone
    years, which gives the distance of the two years in either order (1 when
    they are equal).  With a hyphen, or with the single letter "t", the
    same years form a range, which counts only forwards: 20cd - 20ab when
    that is positive and 1 otherwise. *)
Theorem years_joined_by_to U current_year a b c d :
  unicode_ok U ->
  (a < 10)%N -> (b < 10)%N -> (c < 10)%N -> (d < 10)%N ->
  _get_experience_years U current_year
    (year_text a b ++ u " to " ++ year_text c d) =
    Return (if decide (year_number a b = year_number c d) then 1
            else Z.abs (year_number c d - year_number a b)) /\
  _get_experience_years U current_year
    (year_text a b ++ u " - " ++ year_text c d) =
    Return (if decide (year_number a b < year_number c d)
            then year_number c d - year_number a b else 1) /\
  _get_experience_years U current_year
    (year_text a b ++ u " t " ++ year_text c d) =
    Return (if decide (year_number a b < year_number c d)
            then year_number c d - year_number a b else 1).
Proof.
  intros HU Ha Hb Hc Hd.
  set (t1 := annotate basic_tables (u "20") ++ [digit_char a; digit_char b]).
  set (t2 := annotate basic_tables (u "20") ++ [digit_char c; digit_char d]).
  assert (year_value t1 = year_number a b) as Hv1 by apply year_value_digits.
  assert (year_value t2 = year_number c d) as Hv2 by apply year_value_digits.
  split; [|split].
  - assert (year_ranges_of (annotate U (year_text a b ++ u " to " ++ year_text c d))
            = []) as Hnone.
    { rewrite (annotate_joined U a b c d _ HU) by done. vm_compute. reflexivity. }
    assert (years_of (annotate U (year_text a b ++ u " to " ++ year_text c d))
            = [t1; t2]) as Hyears.
    { rewrite (annotate_joined U a b c d _ HU) by done. vm_compute. reflexivity. }
    rewrite (fallback_value U _ HU Hnone). rewrite Hyears.
    unfold distinct_year_values, distinct_years. rewrite Hyears.
    destruct (decide (t1 = t2)) as [Heq|Hne].
    + rewrite <- Heq.
      assert ((list_to_set [t1; t1] : gset (list uchar)) = {[t1]}) as ->.
      { apply set_eq. intros x.
        rewrite elem_of_list_to_set, !elem_of_cons, elem_of_nil,
          elem_of_singleton. tauto. }
      rewrite elements_singleton. cbn.
      rewrite decide_True; [done|]. by rewrite <- Hv1, <- Hv2, Heq.
    + assert (elements (list_to_set [t1; t2] : gset (list uchar)) ≡ₚ [t1; t2])
        as Hp.
      { apply elements_list_to_set, NoDup_cons.
        split; [by rewrite list_elem_of_singleton|apply NoDup_singleton]. }
      rewrite (Permutation_length Hp). cbn [length Nat.ltb Nat.leb].
      rewrite (max_min_of_pair _ (year_value t1) (year_value t2))
        by (by rewrite Hp).
      rewrite Hv1, Hv2. rewrite decide_False; [done|].
      intros Hy. apply Hne. subst t1 t2. unfold year_number in Hy.
      assert (a = c /\ b = d) as [-> ->] by lia. reflexivity.
  - unfold _get_experience_years.
    rewrite (annotate_joined U a b c d _ HU) by done.
    replace (experience_years current_year _)
      with (max_duration ← longest_range current_year [(t1, t1, t2, t2)] 0;
            Return (if 0 <? max_duration then max_duration else 1))
      by (vm_compute; reflexivity).
    apply (single_range_value current_year a b c d); done.
  - unfold _get_experience_years.
    rewrite (annotate_joined U a b c d _ HU) by done.
    replace (experience_years current_year _)
      with (max_duration ← longest_range current_year [(t1, t1, t2, t2)] 0;
            Return (if 0 <? max_duration then max_duration else 1))
      by (vm_compute; reflexivity).
    apply (single_range_value current_year a b c d); done.
Qed.

Lemma years_joined_by_to_witness :
  _get_experience_years basic_tables 2026
    (year_text 2 4 ++ u " to " ++ year_text 1 9) = Return 5 /\
  _get_experience_years basic_tables 2026
    (year_text 2 4 ++ u " - " ++ year_text 1 9) = Return 1 /\
  _get_experience_years basic_tables 2026
    (year_text 2 4 ++ u " t " ++ year_text 1 9) = Return 1.
Proof.
  apply (years_joined_by_to basic_tables 2026 2 4 1 9 unicode_ok_basic);
    reflexivity.
Defined.

(** ** Skill gaps and the keyword score *)

Lemma mandatory_scan_lengths (keywords extracted_skills : list pystr) :
  (fst (mandatory_scan keywords extracted_skills) +
   length (snd (mandatory_scan keywords extracted_skills)) =
   length keywords)%nat.
Proof.
  unfold mandatory_scan. cbn [fst snd].
  induction keywords as [|k ks IH]; [reflexivity|].
  rewrite !filter_cons. repeat case_decide; cbn; try lia; tauto.
Qed.

Lemma catalog_role_sizes role_name role_reqs :
  JOB_ROLES !! role_name = Some role_reqs ->
  (3 <= length (mandatory_keywords role_reqs) <= 5)%nat /\
  (length (positive_keywords role_reqs) <= 10)%nat.
Proof. intros H. catalog_cases H; cbn; lia. Qed.

Lemma keyword_score_table n k :
  (3 <= n <= 5)%nat -> (k <= n)%nat ->
  (float_of_count k / float_of_count n * 100)%float = 100%float -> k = n.
Proof.
  intros Hn Hk H.
  apply (f_equal (fun x => (100 <=? x)%float)) in H.
  assert (n = 3 \/ n = 4 \/ n = 5)%nat as [->|[->| ->]] by lia;
    do 6 (destruct k as [|k];
          [first [lia | vm_compute in H; discriminate H]|]);
    lia.
Qed.

Lemma scored_run U filepath role_name role_reqs w years :
  JOB_ROLES !! role_name = Some role_reqs ->
  extracted_text U (files w filepath) <> [] ->
  _get_experience_years U (year_now w) (extracted_text U (files w filepath))
    = Return years ->
  fst (parse_and_score_resume U filepath role_name w) =
  Return (Scored (scores_for U role_reqs
                    (extracted_text U (files w filepath)) years)).
Proof.
  intros Hrole Htext Hyears.
  pose proof (catalog_roles_have_keywords _ _ Hrole) as Hk.
  rewrite (parse_run U filepath role_name role_reqs w Hrole).
  destruct (extracted_text U (files w filepath)) as [|c text]; [done|].
  cbv beta iota zeta. rewrite Hyears.
  by destruct (mandatory_keywords role_reqs).
Qed.

(** X6.  In the scores of an analysis, the skill gaps are exactly the
    mandatory keywords of the role that do not stand in the extracted text
    as whole words, in the order of the catalog; none of them is among the
    top skills; and the keyword score is 100 exactly when there is no
    gap. *)
Theorem skill_gaps_are_the_missing_keywords U filepath role_name role_reqs w years :
  unicode_ok U ->
  JOB_ROLES !! role_name = Some role_reqs ->
  extracted_text U (files w filepath) <> [] ->
  _get_experience_years U (year_now w) (extracted_text U (files w filepath))
    = Return years ->
  exists s,
    fst (parse_and_score_resume U filepath role_name w) = Return (Scored s) /\
    (forall k, k ∈ Skill_Gaps s <->
       k ∈ mandatory_keywords role_reqs /\
       ~ whole_word_in U k (extracted_text U (files w filepath))) /\
    Skill_Gaps s `sublist_of` mandatory_keywords role_reqs /\
    (forall k, k ∈ Skill_Gaps s -> k ∉ Top_Skills s) /\
    (F_keyword_scaled s = 100%float <-> Skill_Gaps s = []).
Proof.
  intros HU Hrole Htext Hyears.
  rewrite (scored_run U filepath role_name role_reqs w years Hrole Htext Hyears).
  eexists. split; [reflexivity|].
  cbn [Skill_Gaps Top_Skills F_keyword_scaled scores_for].
  set (text := extracted_text U (files w filepath)).
  unfold keyword_score, mandatory_scan. cbn [fst snd].
  destruct (catalog_keywords_detectable _ _ Hrole) as [Hcat _].
  rewrite Forall_forall in Hcat.
  destruct (catalog_role_sizes _ _ Hrole) as [Hn _].
  pose proof (mandatory_scan_lengths (mandatory_keywords role_reqs)
                (_find_skills U text)) as Hsplit.
  unfold mandatory_scan in Hsplit. cbn [fst snd] in Hsplit.
  split; [|split; [|split]].
  - intros k. rewrite list_elem_of_filter. split.
    + intros [Hnot Hin]. split; [done|]. intros Hw. apply Hnot.
      destruct (Hcat k Hin) as [Hdb Hne].
      by apply (word_edged_detected U k _ HU (catalog_word_edged k Hdb Hne)).
    + intros [Hin Hnot]. split; [|done]. intros Hdet. apply Hnot.
      destruct (Hcat k Hin) as [Hdb Hne].
      by apply (word_edged_detected U k _ HU (catalog_word_edged k Hdb Hne))
        in Hdet as [_ ?].
  - apply sublist_filter.
  - intros k [Hnot _]%list_elem_of_filter. exact Hnot.
  - split.
    + intros Hfull. apply keyword_score_table in Hfull; [|done|apply length_filter].
      rewrite Hfull in Hsplit.
      destruct (filter (fun k => k ∉ _find_skills U text) _); [done|].
      cbn in Hsplit. lia.
    + intros Hgaps. rewrite Hgaps in Hsplit.
      cbn in Hsplit. rewrite Nat.add_0_r in Hsplit. rewrite Hsplit.
      by destruct (catalog_keywords_detectable _ _ Hrole) as [_ ->].
Qed.

Lemma skill_gaps_are_the_missing_keywords_witness :
  exists s,
    fst (parse_and_score_resume basic_tables (u "cv.pdf") (u "Junior Developer")
           (one_file_world (u "cv.pdf")
              (u "Python and MySQL, github; 2021 - 2023") 2026))
      = Return (Scored s) /\
    Skill_Gaps s `sublist_of` [u "python"; u "git"; u "sql"].
Proof.
  destruct (skill_gaps_are_the_missing_keywords basic_tables (u "cv.pdf")
              (u "Junior Developer")
              (Role (0, 3) [u "python"; u "git"; u "sql"]
                 [u "developer"; u "software"; u "engineer"; u "code";
                  u "programming"; u "flask"; u "django"; u "api"])
              (one_file_world (u "cv.pdf")
                 (u "Python and MySQL, github; 2021 - 2023") 2026)
              2 unicode_ok_basic)
    as (s & Hs & _ & Hsub & _).
  - vm_compute. reflexivity.
  - vm_compute. discriminate.
  - vm_compute. reflexivity.
  - exists s. split; [exact Hs|exact Hsub].
Defined.

(** ** The semantic score *)

Lemma is_prefix_spec needle hay :
  is_prefix needle hay = true <-> exists post, hay = needle ++ post.
Proof.
  revert hay. induction needle as [|x needle IH]; intros hay; cbn.
  - split; [by exists hay|done].
  - destruct hay as [|y hay].
    + split; [done|]. by intros (post & ?).
    + rewrite andb_true_iff, IH, N.eqb_eq. split.
      * intros [-> (post & ->)]. by exists post.
      * intros (post & [= -> ->]). eauto.
Qed.

Lemma contains_spec needle hay :
  contains needle hay = true <-> occurs_in needle hay.
Proof.
  unfold occurs_in. induction hay as [|y hay IH]; cbn.
  - rewrite orb_false_r, is_prefix_spec. split.
    + intros (post & ->). by exists [], post.
    + intros ([|] & post & H); [by exists post|discriminate].
  - rewrite orb_true_iff, is_prefix_spec, IH. split.
    + intros [(post & ->)|(pre & post & ->)].
      * by exists [], post.
      * by exists (y :: pre), post.
    + intros ([|z pre] & post & H).
      * left. by exists post.
      * right. injection H as -> ->. by exists pre, post.
Qed.

#[local] Instance occurs_in_dec k text : Decision (occurs_in k text).
Proof.
  destruct (contains k text) eqn:E.
  - left. by apply contains_spec.
  - right. intros H%contains_spec. congruence.
Defined.

Lemma semantic_count_occurs keywords text :
  semantic_count keywords text =
  length (filter (fun k => occurs_in k text) keywords).
Proof.
  unfold semantic_count. f_equal. apply list_filter_iff.
  intros k. apply contains_spec.
Qed.

Lemma semantic_scaled_steps n :
  (n <= 10)%nat -> semantic_steps !! n = Some (semantic_scaled n).
Proof.
  intros Hn. do 11 (destruct n as [|n]; [vm_compute; reflexivity|]). lia.
Qed.

(** X7.  The semantic score of an analysis counts the positive keywords of
    the role that occur anywhere in the extracted text as substrings (no
    word boundary is asked for) and gives 20 for each of them up to five:
    0.0, 20.0, 40.0, 60.0, 80.0 or 100.0; with more than five it is the
    integer 100. *)
Theorem semantic_score_steps U filepath role_name role_reqs w years :
  JOB_ROLES !! role_name = Some role_reqs ->
  extracted_text U (files w filepath) <> [] ->
  _get_experience_years U (year_now w) (extracted_text U (files w filepath))
    = Return years ->
  exists s,
    fst (parse_and_score_resume U filepath role_name w) = Return (Scored s) /\
    semantic_steps !!
      length (filter (fun k => occurs_in k (extracted_text U (files w filepath)))
                     (positive_keywords role_reqs))
    = Some (F_semantic_scaled s).
Proof.
  intros Hrole Htext Hyears.
  rewrite (scored_run U filepath role_name role_reqs w years Hrole Htext Hyears).
  eexists. split; [reflexivity|]. cbn [F_semantic_scaled scores_for].
  rewrite semantic_count_occurs. apply semantic_scaled_steps.
  destruct (catalog_role_sizes _ _ Hrole) as [_ Hp].
  etrans; [apply length_filter|done].
Qed.

Lemma semantic_score_steps_witness :
  exists s,
    fst (parse_and_score_resume basic_tables (u "cv.pdf") (u "Data Analyst")
           (one_file_world (u "cv.pdf") (u "Reporting, 2021 - 2023") 2026))
      = Return (Scored s) /\
    F_semantic_scaled s = PyFloat 40.
Proof.
  destruct (semantic_score_steps basic_tables (u "cv.pdf") (u "Data Analyst")
              (Role (1, 5) [u "sql"; u "excel"; u "tableau"; u "power bi"]
                 [u "analyst"; u "analytics"; u "dashboard"; u "reporting";
                  u "python"; u "r"; u "statistics"; u "visualization";
                  u "data engineer"; u "etl"])
              (one_file_world (u "cv.pdf") (u "Reporting, 2021 - 2023") 2026)
              2)
    as (s & Hs & Hstep).
  - vm_compute. reflexivity.
  - vm_compute. discriminate.
  - vm_compute. reflexivity.
  - exists s. split; [exact Hs|].
    match type of Hstep with ?l = _ =>
      assert (l = Some (PyFloat 40)) as E by (vm_compute; reflexivity)
    end.
    rewrite E in Hstep. by injection Hstep as <-.
Defined.

(** ** The total score *)

Lemma total_table c k n :
  (c <= 10)%nat -> (3 <= n <= 5)%nat -> (k <= n)%nat -> total_ok c k n = true.
Proof.
  intros Hc Hn Hk.
  assert (forallb (fun c => forallb (fun n => forallb (fun k =>
            total_ok c k n) (seq 0 (S n))) [3; 4; 5]%nat) (seq 0 11) = true)
    as H by (vm_compute; reflexivity).
  rewrite forallb_forall in H.
  specialize (H c ltac:(apply in_seq; lia)).
  rewrite forallb_forall in H.
  specialize (H n ltac:(cbn; lia)).
  rewrite forallb_forall in H. apply H, in_seq. lia.
Qed.

Lemma recommend_strong_or_good years exp_min exp_max total :
  (fst (recommend years exp_min exp_max total) = u "Strong Fit" ->
     (80 <=? total)%float = true) /\
  (fst (recommend years exp_min exp_max total) = u "Good Fit" ->
     (60 <=? total)%float = true).
Proof.
  unfold recommend.
  destruct (exp_max <? years); [split; discriminate|].
  destruct (years <? exp_min); [split; discriminate|].
  destruct (80 <=? total)%float eqn:E80; [split; [done|discriminate]|].
  destruct (60 <=? total)%float eqn:E60; split; try done; discriminate.
Qed.

(** X8.  For a role of the catalog the total score of an analysis lies
    between 0 and 100.  "Strong Fit" is only recommended when at least
    three positive keywords occur in the text and at most two fifths of the
    mandatory keywords are gaps; and a candidate for whom every mandatory
    keyword is a gap is never recommended as "Strong Fit" or "Good Fit". *)
Theorem total_score_bounds U filepath role_name role_reqs w years :
  JOB_ROLES !! role_name = Some role_reqs ->
  extracted_text U (files w filepath) <> [] ->
  _get_experience_years U (year_now w) (extracted_text U (files w filepath))
    = Return years ->
  exists s,
    fst (parse_and_score_resume U filepath role_name w) = Return (Scored s) /\
    (0 <=? Total_Score_Bias_Free s)%float = true /\
    (Total_Score_Bias_Free s <=? 100)%float = true /\
    (Recommendation s = u "Strong Fit" ->
       (3 <= length (filter (fun k => occurs_in k
                               (extracted_text U (files w filepath)))
                            (positive_keywords role_reqs)))%nat /\
       (5 * length (Skill_Gaps s) <=
        2 * length (mandatory_keywords role_reqs))%nat) /\
    (length (Skill_Gaps s) = length (mandatory_keywords role_reqs) ->
       Recommendation s <> u "Strong Fit" /\ Recommendation s <> u "Good Fit").
Proof.
  intros Hrole Htext Hyears.
  rewrite (scored_run U filepath role_name role_reqs w years Hrole Htext Hyears).
  eexists. split; [reflexivity|].
  cbn [Total_Score_Bias_Free Recommendation Skill_Gaps scores_for].
  set (text := extracted_text U (files w filepath)).
  destruct (catalog_role_sizes _ _ Hrole) as [Hn Hp].
  pose proof (mandatory_scan_lengths (mandatory_keywords role_reqs)
                (_find_skills U text)) as Hsplit.
  set (scan := mandatory_scan (mandatory_keywords role_reqs)
                              (_find_skills U text)) in *.
  assert (total_score_of U role_reqs text =
          total_for (semantic_count (positive_keywords role_reqs) text)
                    (fst scan) (length (mandatory_keywords role_reqs)))
    as Htot by reflexivity.
  assert (semantic_count (positive_keywords role_reqs) text <= 10)%nat as Hc.
  { unfold semantic_count. etrans; [apply length_filter|done]. }
  pose proof (total_table _ (fst scan) _ Hc Hn ltac:(lia)) as Hok.
  unfold total_ok in Hok. rewrite <- Htot in Hok. cbv zeta in Hok.
  apply andb_prop in Hok as [[[H0 H100]%andb_prop Hnone]%andb_prop Hstrong].
  rewrite <- semantic_count_occurs.
  destruct (recommend_strong_or_good years (fst (experience_range role_reqs))
              (snd (experience_range role_reqs))
              (total_score_of U role_reqs text)) as [Hs Hg].
  split; [done|]. split; [done|]. split.
  - intros H%Hs. rewrite H in Hstrong.
    apply andb_prop in Hstrong as [?%Nat.leb_le ?%Nat.leb_le]. split; [done|lia].
  - intros Hall. assert (fst scan = 0)%nat as Hz by lia. split.
    + intros H%Hs. rewrite H in Hstrong.
      apply andb_prop in Hstrong as [_ Hle%Nat.leb_le]. lia.
    + intros H%Hg. rewrite Hz, H in Hnone. discriminate Hnone.
Qed.

Lemma total_score_bounds_witness :
  exists s,
    fst (parse_and_score_resume basic_tables (u "cv.pdf") (u "Frontend Developer")
           (one_file_world (u "cv.pdf")
              (u "HTML, CSS and React for a web developer UI; 2022 - 2024") 2026))
      = Return (Scored s) /\
    (Total_Score_Bias_Free s <=? 100)%float = true.
Proof.
  destruct (total_score_bounds basic_tables (u "cv.pdf") (u "Frontend Developer")
              (Role (1, 6) [u "html"; u "css"; u "javascript"; u "react"; u "git"]
                 [u "frontend"; u "ui"; u "ux"; u "web developer"; u "angular";
                  u "vue"; u "typescript"])
              (one_file_world (u "cv.pdf")
                 (u "HTML, CSS and React for a web developer UI; 2022 - 2024") 2026)
              2)
    as (s & Hs & _ & H100 & _).
  - vm_compute. reflexivity.
  - vm_compute. discriminate.
  - vm_compute. reflexivity.
  - exists s. split; [exact Hs|exact H100].
Defined.

(** ** Upper and lower case *)

Lemma ascii_is_basic t : forallb is_ascii t = true -> forallb basic t = true.
Proof.
  rewrite !forallb_forall. intros H c Hc. unfold basic.
  specialize (H c Hc). unfold is_ascii in H. by rewrite H.
Qed.

Lemma lower_from_ascii before t :
  forallb is_ascii t = true ->
  lower_from before (annotate basic_tables t) = ascii_tolower <$> t.
Proof.
  revert before. induction t as [|c t IH]; intros before; [reflexivity|].
  intros [Hc Ht]%andb_prop. cbn [annotate fmap list_fmap lower_from].
  change (list_fmap N uchar (classify basic_tables) t)
    with (annotate basic_tables t).
  rewrite (IH _ Ht). cbn [cp classify low].
  destruct (N.eqb_spec c 931) as [->|_]; [discriminate|]. reflexivity.
Qed.

Lemma extracted_text_ascii U texts :
  unicode_ok U -> forallb is_ascii (concat texts) = true ->
  extracted_text U (Pages texts) = ascii_tolower <$> concat texts.
Proof.
  intros HU Ha. unfold extracted_text, str_lower.
  rewrite (annotate_basic U _ HU (ascii_is_basic _ Ha)).
  by apply lower_from_ascii.
Qed.

Lemma parse_depends_on_text U p1 p2 role_name w1 w2 :
  extracted_text U (files w1 p1) = extracted_text U (files w2 p2) ->
  year_now w1 = year_now w2 ->
  fst (parse_and_score_resume U p1 role_name w1) =
  fst (parse_and_score_resume U p2 role_name w2).
Proof.
  intros Ht Hy. destruct (JOB_ROLES !! role_name) as [role_reqs|] eqn:Hrole.
  - rewrite !(parse_run U _ role_name role_reqs _ Hrole). by rewrite Ht, Hy.
  - unfold parse_and_score_resume. by rewrite Hrole.
Qed.

(** X9.  Letter case and page breaks do not matter: two readable documents
    of ASCII text whose pages, put together, differ only in the case of
    letters get the same analysis (in the same year, for the same role). *)
Theorem analysis_ignores_ascii_case U p1 p2 role_name w1 w2 texts1 texts2 :
  unicode_ok U ->
  files w1 p1 = Pages texts1 -> files w2 p2 = Pages texts2 ->
  forallb is_ascii (concat texts1) = true ->
  forallb is_ascii (concat texts2) = true ->
  ascii_tolower <$> concat texts1 = ascii_tolower <$> concat texts2 ->
  year_now w1 = year_now w2 ->
  fst (parse_and_score_resume U p1 role_name w1) =
  fst (parse_and_score_resume U p2 role_name w2).
Proof.
  intros HU H1 H2 Ha1 Ha2 Hsame Hyear.
  apply parse_depends_on_text; [|done].
  rewrite H1, H2, !extracted_text_ascii by done. exact Hsame.
Qed.

Lemma analysis_ignores_ascii_case_witness :
  fst (parse_and_score_resume basic_tables (u "a.pdf") (u "Junior Developer")
         (one_file_world (u "a.pdf") (u "PYTHON, Git & SQL 2021-2023") 2026)) =
  fst (parse_and_score_resume basic_tables (u "b.pdf") (u "Junior Developer")
         (one_file_world (u "b.pdf") (u "python, GIT & sql 2021-2023") 2026)).
Proof.
  eapply (analysis_ignores_ascii_case basic_tables (u "a.pdf") (u "b.pdf")
            (u "Junior Developer") _ _
            [u "PYTHON, Git & SQL 2021-2023"] [u "python, GIT & sql 2021-2023"]
            unicode_ok_basic);
    vm_compute; reflexivity.
Defined.

(** ** Text put together from parts *)

Lemma catalog_entries_nonempty s : s ∈ SKILLS_DB -> s <> [].
Proof.
  assert (forallb (fun s => negb (bool_decide (s = []))) SKILLS_DB = true) as H
    by (vm_compute; reflexivity).
  rewrite forallb_forall in H. intros Hs%list_elem_of_In%H ->. done.
Qed.

Lemma word_before_app_nonempty U a b :
  b <> [] -> word_before U (a ++ b) = word_before U b.
Proof.
  intros Hb. unfold word_before. rewrite last_app.
  destruct (last b) eqn:E; [done|]. by apply last_None in E.
Qed.

Lemma word_after_app_nonempty U a b :
  a <> [] -> word_after U (a ++ b) = word_after U a.
Proof. by destruct a. Qed.

(** X10.  A skill found in a text is still found when more text is put
    before and after it, provided the added text does not touch it with a
    word character.  Without that proviso it can be lost: pages are joined
    with nothing between them, and "sql" at the end of one part is no longer
    found when the next part starts with "server". *)
Theorem skills_survive_separated_context U t0 t1 t2 s :
  unicode_ok U ->
  (s ∈ _find_skills U t1 ->
   word_before U t0 = false -> word_after U t2 = false ->
   s ∈ _find_skills U (t0 ++ t1 ++ t2)) /\
  u "sql" ∈ _find_skills U (u "uses sql") /\
  u "sql" ∉ _find_skills U (u "uses sql" ++ u "server side").
Proof.
  intros HU. split; [|split].
  - intros [Hdb (pre & post & -> & Hb1 & Hb2)]%skill_detected H0 H2.
    pose proof (catalog_entries_nonempty s Hdb) as Hs.
    apply skill_detected. split; [done|].
    exists (t0 ++ pre), (post ++ t2). split; [by rewrite <- !app_assoc|].
    assert (word_after U (s ++ post ++ t2) = word_after U (s ++ post)) as ->
      by (by rewrite !(word_after_app_nonempty U s)).
    assert (word_before U ((t0 ++ pre) ++ s) = word_before U (pre ++ s)) as ->
      by (by rewrite !(word_before_app_nonempty U _ s)).
    assert (word_before U (t0 ++ pre) = word_before U pre) as ->.
    { destruct pre as [|c pre]; [by rewrite app_nil_r|].
      by apply word_before_app_nonempty. }
    assert (word_after U (post ++ t2) = word_after U post) as ->.
    { destruct post as [|c post]; [done|reflexivity]. }
    done.
  - rewrite (find_skills_on_basic U _ HU) by (vm_compute; reflexivity).
    apply (bool_decide_unpack _). vm_compute. exact I.
  - rewrite (find_skills_on_basic U _ HU) by (vm_compute; reflexivity).
    apply (bool_decide_unpack _). vm_compute. exact I.
Qed.

Lemma skills_survive_separated_context_witness :
  u "sql" ∈ _find_skills basic_tables (u "page one: " ++ u "sql" ++ u " (page two)").
Proof.
  apply (proj1 (skills_survive_separated_context basic_tables
                  (u "page one: ") (u "sql") (u " (page two)") (u "sql")
                  unicode_ok_basic)).
  - apply (bool_decide_unpack _). vm_compute. exact I.
  - vm_compute. reflexivity.
  - vm_compute. reflexivity.
Defined.

(** ** The web handler *)

Lemma int_raises s e : int s = Raise e -> exists msg, e = ValueError msg.
Proof.
  unfold int. destruct s as [|c s]; [intros [= <-]; eauto|].
  destruct (int_digits 0 (c :: s)); [done|]. intros [= <-]. eauto.
Qed.

Lemma mapM_int_raises l e :
  mapM int l = Raise e -> exists msg, e = ValueError msg.
Proof.
  induction l as [|t l IH]; [done|]. cbn.
  destruct (int t) as [n|e'] eqn:Ht; cbn.
  - destruct (mapM int l) as [ns|e'']; [done|]. cbn. intros [= <-]. by apply IH.
  - intros [= <-]. by apply int_raises in Ht.
Qed.

Lemma longest_range_raises current_year year_ranges max_duration e :
  longest_range current_year year_ranges max_duration = Raise e ->
  exists msg, e = ValueError msg.
Proof.
  revert max_duration.
  induction year_ranges as [|[[[s1 s2] e1] e2] more IH]; intros acc; [done|].
  cbn. destruct (int s1) as [start_year|e'] eqn:Hs; cbn.
  - unfold end_year_of. destruct (bool_decide _); cbn; [apply IH|].
    destruct (int e1) as [end_year|e''] eqn:He; cbn; [apply IH|].
    intros [= <-]. by apply int_raises in He.
  - intros [= <-]. by apply int_raises in Hs.
Qed.

Lemma experience_raises U current_year text e :
  _get_experience_years U current_year text = Raise e ->
  exists msg, e = ValueError msg.
Proof.
  unfold _get_experience_years, experience_years.
  destruct (year_ranges_of _) as [|g gs].
  - destruct (years_of _) as [|y ys]; [done|].
    destruct (mapM int _) as [ints|e'] eqn:Hm; [done|].
    cbn. intros [= <-]. by apply mapM_int_raises in Hm.
  - destruct (longest_range _ _ _) as [m|e'] eqn:Hl; [done|].
    cbn. intros [= <-]. by apply longest_range_raises in Hl.
Qed.

(** The only exception the analysis raises is ValueError. *)
Lemma parse_raises U filepath role_name w e :
  fst (parse_and_score_resume U filepath role_name w) = Raise e ->
  exists msg, e = ValueError msg.
Proof.
  destruct (JOB_ROLES !! role_name) as [role_reqs|] eqn:Hrole.
  - rewrite (parse_run U filepath role_name role_reqs w Hrole).
    pose proof (catalog_roles_have_keywords _ _ Hrole) as Hk.
    destruct (extracted_text U (files w filepath)) as [|c text]; [done|].
    cbv beta iota zeta.
    destruct (_get_experience_years _ _ _) as [years|e'] eqn:He.
    + by destruct (mandatory_keywords role_reqs).
    + intros [= <-]. by apply experience_raises in He.
  - unfold parse_and_score_resume. rewrite Hrole. cbn. intros [= <-]. eauto.
Qed.

Lemma saved_file srv filepath doc :
  files (sys (save_upload filepath doc srv)) filepath = doc /\
  year_now (sys (save_upload filepath doc srv)) = year_now (sys srv).
Proof. cbn. by rewrite decide_True. Qed.







(** X14.  The answer to a request does not depend on what earlier requests
    left on the machine: for the same upload (name and bytes), the same role
    and the same year two machines give the same answer, whatever is on
    their disks (also at the path of the upload), was opened or was printed
    before. *)
Theorem handler_is_stateless U file role_name srv1 srv2 name :
  filename file = Some name -> name <> [] ->
  path_join srv1 UPLOAD_FOLDER name = path_join srv2 UPLOAD_FOLDER name ->
  save_error srv1 (path_join srv1 UPLOAD_FOLDER name) = None ->
  save_error srv2 (path_join srv2 UPLOAD_FOLDER name) = None ->
  year_now (sys srv1) = year_now (sys srv2) ->
  fst (upload_file_and_score U file role_name srv1) =
  fst (upload_file_and_score U file role_name srv2).
Proof.
  intros Hname Hne Hpath Hs1 Hs2 Hyear.
  assert (fst (parse_and_score_resume U (path_join srv1 UPLOAD_FOLDER name)
                 role_name
                 (sys (save_upload (path_join srv1 UPLOAD_FOLDER name)
                         (payload file) srv1))) =
          fst (parse_and_score_resume U (path_join srv2 UPLOAD_FOLDER name)
                 role_name
                 (sys (save_upload (path_join srv2 UPLOAD_FOLDER name)
                         (payload file) srv2)))) as Hcore.
  { apply parse_depends_on_text.
    - destruct (saved_file srv1 (path_join srv1 UPLOAD_FOLDER name)
                  (payload file)) as [-> _].
      by destruct (saved_file srv2 (path_join srv2 UPLOAD_FOLDER name)
                     (payload file)) as [-> _].
    - cbn. exact Hyear. }
  unfold upload_file_and_score. rewrite Hname.
  destruct name as [|c name]; [done|].
  cbv zeta. rewrite Hs1, Hs2.
  destruct (parse_and_score_resume U (path_join srv1 _ _) _ _) as [r1 w1].
  destruct (parse_and_score_resume U (path_join srv2 _ _) _ _) as [r2 w2].
  cbn in Hcore. subst r2.
  destruct r1 as [a|[msg|]]; reflexivity.
Qed.

Lemma handler_is_stateless_witness :
  fst (upload_file_and_score basic_tables
         (UploadFile (Some (u "cv.pdf")) (Pages [u "sql and excel, 2020-2022"]))
         (u "Data Analyst")
         (Server broken_world (fun _ => false) (fun _ => None)
            (fun a b => a ++ u "/" ++ b) (fun _ => u "no such file"))) =
  fst (upload_file_and_score basic_tables
         (UploadFile (Some (u "cv.pdf")) (Pages [u "sql and excel, 2020-2022"]))
         (u "Data Analyst")
         (Server (one_file_world (u "temp_uploads/cv.pdf") (u "python") 2026)
            (fun _ => true) (fun _ => None)
            (fun a b => a ++ u "/" ++ b) (fun _ => u "gone"))).
Proof.
  apply (handler_is_stateless basic_tables _ _ _ _ (u "cv.pdf"));
    first [reflexivity | discriminate].
Defined.

(** ** A range that ends in "present" or "current" *)

Lemma spaces_then_skip {A} (k : option uchar -> list uchar -> option A)
      prev (sp : uchar) n c rest r :
  k (prev_after prev (replicate n sp)) (c :: rest) = Some r ->
  space sp = true -> space c = false ->
  spaces_then k prev (replicate n sp ++ c :: rest) = Some r.
Proof.
  intros Hk Hsp Hc. revert prev Hk. induction n as [|n IH]; intros prev Hk.
  - cbn in *. by rewrite Hc.
  - cbn [replicate app spaces_then]. rewrite Hsp.
    rewrite (IH (Some sp)); [done|].
    cbn [replicate] in Hk. by rewrite prev_after_cons in Hk.
Qed.

Lemma findall_skip_all {A} (m : option uchar -> list uchar -> option (A * list uchar))
      prev rest :
  (forall p, m p [] = None) -> findall m (length rest) prev rest = [].
Proof.
  intros Hend. revert prev. induction rest as [|c rest IH]; intros prev; cbn.
  - by rewrite Hend.
  - apply IH.
Qed.

Lemma findall_whole {A} (m : option uchar -> list uchar -> option (A * list uchar))
      text a :
  (forall p, m p [] = None) ->
  m None text = Some (a, []) -> findall m 0 None text = [a].
Proof.
  intros Hend Hm. destruct text as [|c rest]; cbn; rewrite Hm; [done|].
  f_equal.
  replace (S (length rest) - length (@nil uchar) - 1)%nat with (length rest)
    by (cbn; lia).
  by apply findall_skip_all.
Qed.

Lemma range_at_end p : range_at p [] = None.
Proof. unfold range_at, year_at. by destruct (boundary p []). Qed.

Lemma prev_after_spaces prev (sp : uchar) n :
  prev_after prev (replicate n sp) = if decide (n = 0)%nat then prev else Some sp.
Proof.
  destruct n as [|n]; [done|]. unfold prev_after.
  change (replicate (S n) sp) with (replicate 1 sp ++ replicate n sp).
  rewrite <- replicate_add, Nat.add_comm, replicate_add. cbn.
  by rewrite last_snoc.
Qed.

Lemma dash_cases (P : N -> Prop) :
  P 45%N -> P 8211%N -> P 8212%N ->
  forall sep, sep ∈ [45; 8211; 8212]%N -> P sep.
Proof.
  intros ? ? ? sep Hsep.
  repeat (apply elem_of_cons in Hsep as [->|Hsep]); try done.
  by apply elem_of_nil in Hsep.
Qed.

Lemma now_cases (P : pystr -> Prop) :
  P (u "present") -> P (u "current") ->
  forall tok, tok ∈ [u "present"; u "current"] -> P tok.
Proof.
  intros ? ? tok Htok.
  repeat (apply elem_of_cons in Htok as [->|Htok]); try done.
  by apply elem_of_nil in Htok.
Qed.

(** One range from the start to the end of the text, ending in the current
    year. *)
Lemma now_range_value current_year a b (text T : list uchar) :
  range_at None text =
    Some ((annotate basic_tables (u "20") ++ [digit_char a; digit_char b],
           annotate basic_tables (u "20") ++ [digit_char a; digit_char b],
           T, T), []) ->
  end_year_of current_year T = Return current_year ->
  experience_years current_year text =
  Return (if decide (year_number a b < current_year)
          then current_year - year_number a b else 1).
Proof.
  intros Hrange Hend. unfold experience_years, year_ranges_of.
  rewrite (findall_whole _ _ _ range_at_end Hrange). cbn [longest_range].
  assert (int (annotate basic_tables (u "20") ++ [digit_char a; digit_char b])
          = Return (year_number a b)) as ->.
  { rewrite <- year_value_digits.
    let v := eval vm_compute in (annotate basic_tables (u "20")) in
    change (annotate basic_tables (u "20")) with v.
    reflexivity. }
  rewrite Hend. cbn [mbind result_bind].
  destruct (Z.ltb_spec 0 (current_year - year_number a b)).
  - rewrite decide_True by lia.
    destruct (Z.ltb_spec 0 (current_year - year_number a b)); [done|lia].
  - rewrite decide_False by lia. reflexivity.
Qed.

(** The year token 20ab is found where no word character follows it. *)
Lemma year_at_digits a b (rest : list uchar) :
  word_opt (head rest) = false ->
  year_at None
    ((annotate basic_tables (u "20") ++ [digit_char a; digit_char b]) ++ rest) =
  Some (annotate basic_tables (u "20") ++ [digit_char a; digit_char b], rest).
Proof.
  intros Hrest. unfold year_at, boundary.
  let v := eval vm_compute in (annotate basic_tables (u "20")) in
  change (annotate basic_tables (u "20")) with v.
  cbn. by rewrite Hrest.
Qed.

(** The range pattern on a year, blanks, a dash, blanks and a word for now. *)
Lemma range_at_dash a b n m (sepc c : uchar) (T' : list uchar) :
  space sepc = false -> separator sepc = true -> is_word sepc = false ->
  space c = false -> is_word c = true ->
  end_token (c :: T') = Some (c :: T', []) ->
  range_at None
    ((annotate basic_tables (u "20") ++ [digit_char a; digit_char b]) ++
     replicate n (classify basic_tables 32) ++ [sepc] ++
     replicate m (classify basic_tables 32) ++ c :: T') =
  Some ((annotate basic_tables (u "20") ++ [digit_char a; digit_char b],
         annotate basic_tables (u "20") ++ [digit_char a; digit_char b],
         c :: T', c :: T'), []).
Proof.
  intros Hs1 Hs2 Hs3 Hc1 Hc2 Hend.
  set (Y := annotate basic_tables (u "20") ++ [digit_char a; digit_char b]).
  set (sp := classify basic_tables 32).
  unfold range_at.
  assert (year_at None (Y ++ replicate n sp ++ [sepc] ++ replicate m sp ++ c :: T')
          = Some (Y, replicate n sp ++ [sepc] ++ replicate m sp ++ c :: T')) as ->.
  { apply year_at_digits. destruct n; cbn; [by rewrite Hs3|reflexivity]. }
  cbn [app]. apply spaces_then_skip; [|reflexivity|exact Hs1].
  rewrite Hs2. apply spaces_then_skip; [|reflexivity|exact Hc1].
  rewrite prev_after_spaces.
  assert (boundary (if decide (m = 0%nat) then Some sepc else Some sp)
                   (c :: T') = true) as ->.
  { unfold boundary. cbn [head word_opt]. rewrite Hc2.
    destruct (decide _); cbn; [by rewrite Hs3|reflexivity]. }
  by rewrite Hend.
Qed.

(** X15.  A year 20ab, then a hyphen, en dash or em dash with any number of
    blanks on either side, then "present" or "current", is a range that
    ends in the current year: the estimate is the current year minus 20ab
    when that is positive, and 1 otherwise. *)
Theorem range_up_to_now U current_year a b n m sep tok :
  unicode_ok U -> (a < 10)%N -> (b < 10)%N ->
  sep ∈ [45; 8211; 8212]%N -> tok ∈ [u "present"; u "current"] ->
  _get_experience_years U current_year
    (year_text a b ++ replicate n 32%N ++ [sep] ++ replicate m 32%N ++ tok) =
  Return (if decide (year_number a b < current_year)
          then current_year - year_number a b else 1).
Proof.
  intros HU Ha Hb Hsep Htok.
  assert (basic sep = true /\ space (classify basic_tables sep) = false /\
          separator (classify basic_tables sep) = true /\
          is_word (classify basic_tables sep) = false)
    as (Hbs & Hs1 & Hs2 & Hs3).
  { revert sep Hsep. by apply dash_cases. }
  assert (forallb basic tok = true /\
          exists c T', annotate basic_tables tok = c :: T' /\
            space c = false /\ is_word c = true /\
            end_token (c :: T') = Some (c :: T', []) /\
            end_year_of current_year (c :: T') = Return current_year)
    as (Hbt & c & T' & HT & Hc1 & Hc2 & Hend & Hnow).
  { revert tok Htok. apply now_cases; (split; [reflexivity|]);
      eexists _, _; (split; [reflexivity|]); by vm_compute. }
  unfold _get_experience_years.
  assert (annotate U (year_text a b ++ replicate n 32%N ++ [sep] ++
                      replicate m 32%N ++ tok) =
          (annotate basic_tables (u "20") ++ [digit_char a; digit_char b]) ++
          replicate n (classify basic_tables 32) ++
          [classify basic_tables sep] ++
          replicate m (classify basic_tables 32) ++ c :: T') as ->.
  { rewrite <- HT. unfold annotate, year_text.
    rewrite !fmap_app, !fmap_replicate.
    cbn [fmap list_fmap]. rewrite !(classify_digit U) by done.
    rewrite !(HU 50%N), !(HU 48%N), (HU 32%N), (HU sep) by done.
    change (classify U <$> tok) with (annotate U tok).
    by rewrite (annotate_basic U tok HU Hbt). }
  apply (now_range_value current_year a b _ (c :: T')); [|exact Hnow].
  by apply range_at_dash.
Qed.

Lemma range_up_to_now_witness :
  _get_experience_years basic_tables 2026
    (year_text 1 8 ++ replicate 2 32%N ++ [8211%N] ++ replicate 1 32%N ++
     u "present") = Return 8.
Proof.
  apply (range_up_to_now basic_tables 2026 1 8 2 1 8211 (u "present")
           unicode_ok_basic).
  - reflexivity.
  - reflexivity.
  - apply list_elem_of_further, list_elem_of_here.
  - apply list_elem_of_here.
Defined.
